(** * gridformat: grid-trait adapters and VTK attribute names

    A shallow embedding of
    - the VTK attribute helpers that come with [gridformat/encoding.hpp]
      (module [VTK]),
    - the traits of CGAL triangulations (modules [CGAL], [CGALTraits]),
    - the traits of Dune grid views and the Lagrange mesh built on them
      (modules [Dune], [DuneDetail], [DuneTraits], [DuneLagrangeDetail],
      [DuneLagrange]),
    - [test/api/test_generic_parallel_writer.cpp] (module [ParallelTest]),
    followed by sample grids and the properties of these functions.

    C++ exceptions are values of [Exception]; a function that may throw
    returns a [Result].  Unsigned machine integers are [N] or [Z] with
    the wrap-around written out. *)

From Stdlib Require Import ZArith NArith String Ascii List Lia.
From Stdlib Require Import DecimalString DecimalN DecimalFacts.
From Stdlib Require Import QArith Qround Lqa.
From stdpp Require Import base list gmap strings.

Local Open Scope string_scope.
Local Open Scope list_scope.

(** ** Exceptions and results *)

Inductive Exception : Type :=
| ValueError (msg : string)
| NotImplemented (msg : string)
| InvalidState (msg : string)
| OutOfRange          (* std::out_of_range, thrown by [.at()] *)
| LengthError         (* std::length_error, thrown by an oversized vector *)
| Undefined.          (* a failed [assert] or an out-of-bounds [operator[]] *)

Inductive Result (A : Type) : Type :=
| Ok (a : A)
| Throw (e : Exception).
Arguments Ok {A} a.
Arguments Throw {A} e.

Definition bind {A B : Type} (r : Result A) (k : A -> Result B) : Result B :=
  match r with
  | Ok a => k a
  | Throw e => Throw e
  end.

Notation "x <- r ;; k" := (bind r (fun x => k))
  (at level 100, r at next level, right associativity).

(** [for (x : xs) acc = body(acc, x)] with early exit on a throw. *)
Fixpoint foldM {A S : Type} (body : S -> A -> Result S) (xs : list A) (s : S)
  : Result S :=
  match xs with
  | [] => Ok s
  | x :: xs' => s' <- body s x ;; foldM body xs' s'
  end.

(** A lazily transformed range, forced from front to back. *)
Fixpoint mapM {A B : Type} (f : A -> Result B) (xs : list A) : Result (list B) :=
  match xs with
  | [] => Ok []
  | x :: xs' => y <- f x ;; ys <- mapM f xs' ;; Ok (y :: ys)
  end.

(** [std::size_t] is 64 bits wide; [to_size_t] is the conversion of a
    signed value to it. *)
Definition size_t_modulus : Z := 2 ^ 64.
Definition to_size_t (z : Z) : Z := z mod size_t_modulus.

(** [int] is 32 bits wide, two's complement. *)
Definition INT_MAX : Z := 2 ^ 31 - 1.
Definition to_int (z : Z) : Z := (z + 2 ^ 31) mod 2 ^ 32 - 2 ^ 31.
Definition int_add (a b : Z) : Z := to_int (a + b).
Definition int_sub (a b : Z) : Z := to_int (a - b).

(** Unsigned multiplication in [std::size_t]. *)
Definition size_t_mul (a b : N) : N := ((a * b) mod 2 ^ 64)%N.

(** [std::to_string] of an unsigned value. *)
Definition to_string (n : N) : string :=
  NilZero.string_of_uint (N.to_uint n).

(** Whether [needle] occurs in [haystack]. *)
Fixpoint names (needle haystack : string) : bool :=
  if String.prefix needle haystack then true
  else match haystack with
       | EmptyString => false
       | String _ rest => names needle rest
       end.

(** ** gridformat/encoding.hpp: names of VTK attributes *)

Module VTK.

Inductive Encoder : Type := Ascii | Base64 | RawBinary.
Inductive DataFormat : Type := Inlined | Appended.

(** The three queries of [DynamicPrecision] used by [attribute_name]. *)
Record DynamicPrecision : Type := {
  is_integral : bool;
  is_signed : bool;
  size_in_bytes : N      (* std::size_t *)
}.

Definition prefix_of (prec : DynamicPrecision) : string :=
  if is_integral prec then (if is_signed prec then "Int" else "UInt")
  else "Float".

Definition attribute_name_precision (prec : DynamicPrecision) : string :=
  prefix_of prec +:+ to_string (size_t_mul (size_in_bytes prec) 8).

Definition attribute_name (e : Encoder) : string :=
  match e with
  | Ascii => "ascii"
  | Base64 => "base64"
  | RawBinary => "raw"
  end.

Definition format_name (format : DataFormat) : string :=
  match format with
  | Appended => "appended"
  | Inlined => "inlined"
  end.

Definition other_format_name (format : DataFormat) : string :=
  match format with
  | Appended => "GridFormat::VTK::inlined"
  | Inlined => "GridFormat::VTK::appended"
  end.

(** The template overload, chosen when no exact overload matches. *)
Definition data_format_name_fallback (e : Encoder) (format : DataFormat)
  : Result string :=
  Throw (ValueError
    ("VTK's '" +:+ format_name format +:+ "' data format cannot be used with "
     +:+ attribute_name e
     +:+ " encoding. Please choose '" +:+ other_format_name format
     +:+ "' or a different encoder.")).

Definition data_format_name (e : Encoder) (format : DataFormat)
  : Result string :=
  match e, format with
  | RawBinary, Appended => Ok "appended"
  | Base64, Appended => Ok "appended"
  | Base64, Inlined => Ok "binary"
  | Ascii, Inlined => Ok "ascii"
  | _, _ => data_format_name_fallback e format
  end.

(** The precisions of the scalar types fields are written with. *)
Definition uint32 : DynamicPrecision :=
  {| is_integral := true; is_signed := false; size_in_bytes := 4 |}.
Definition int64 : DynamicPrecision :=
  {| is_integral := true; is_signed := true; size_in_bytes := 8 |}.
Definition float64 : DynamicPrecision :=
  {| is_integral := false; is_signed := true; size_in_bytes := 8 |}.

(** [std::endian] and the compressors, with their attribute names. *)
Inductive endian : Type := little | big.

Definition attribute_name_endian (e : endian) : string :=
  match e with
  | little => "LittleEndian"
  | big => "BigEndian"
  end.

Inductive Compressor : Type := LZMA | ZLIB | LZ4.

Definition attribute_name_compressor (c : Compressor) : string :=
  match c with
  | LZMA => "vtkLZMADataCompressor"
  | ZLIB => "vtkZLibDataCompressor"
  | LZ4 => "vtkLZ4DataCompressor"
  end.

(** The data format the message of the fallback overload points to. *)
Definition other_format (format : DataFormat) : DataFormat :=
  match format with
  | Appended => Inlined
  | Inlined => Appended
  end.

End VTK.

(** ** gridformat/grid/cell_type.hpp: the tags the adapters return *)

Inductive CellType : Type :=
| vertex | segment | triangle | quadrilateral | tetrahedron | hexahedron
| lagrange_segment | lagrange_triangle | lagrange_quadrilateral
| lagrange_tetrahedron | lagrange_hexahedron.

(** ** The part of CGAL's triangulations the traits call

    Vertices, faces (2D) and cells (3D) are stored in the containers of
    the triangulation data structure, the infinite vertex and the faces or
    cells incident to it among them; a handle is the address of the stored
    object.  The [finite_*_handles] ranges skip the infinite objects, and
    the [number_of_*] queries used here count the finite ones. *)

Module CGAL.

Definition Handle : Type := N.

Record Cell : Type := {
  cell_address : Handle;
  cell_vertices : list Handle       (* cell->vertex(i) *)
}.

Record Triangulation : Type := {
  grid2d : bool;                    (* Concepts::CGALGrid2D<Grid> *)
  sizeof_vertex : N;                (* sizeof(Vertex), not zero *)
  infinite_vertex : Handle;
  tds_vertices : list Handle;
  tds_cells : list Cell             (* faces in 2D, cells in 3D *)
}.

Definition is_infinite (t : Triangulation) (v : Handle) : bool :=
  (v =? infinite_vertex t)%N.

Definition is_infinite_cell (t : Triangulation) (c : Cell) : bool :=
  existsb (is_infinite t) (cell_vertices c).

Definition finite_vertex_handles (t : Triangulation) : list Handle :=
  filter (fun v => negb (is_infinite t v)) (tds_vertices t).

Definition finite_face_handles (t : Triangulation) : list Cell :=
  filter (fun c => negb (is_infinite_cell t c)) (tds_cells t).

Definition finite_cell_handles (t : Triangulation) : list Cell :=
  filter (fun c => negb (is_infinite_cell t c)) (tds_cells t).

Definition number_of_vertices (t : Triangulation) : nat :=
  length (finite_vertex_handles t).

Definition number_of_faces (t : Triangulation) : nat :=
  length (finite_face_handles t).

Definition number_of_finite_cells (t : Triangulation) : nat :=
  length (finite_cell_handles t).

(** Distinct vertices of one triangulation are distinct objects of the
    vertex container: their storage does not overlap. *)
Definition storage_disjoint (t : Triangulation) : Prop :=
  sizeof_vertex t <> 0%N
  /\ forall v w, v ∈ tds_vertices t -> w ∈ tds_vertices t -> v <> w ->
       (v + sizeof_vertex t <= w \/ w + sizeof_vertex t <= v)%N.

(** [Handle_hash_function]: the address divided by the object size. *)
Definition Handle_hash_function (t : Triangulation) (v : Handle) : N :=
  (v / sizeof_vertex t)%N.

(** [cell->vertex(i)], defined for the corners the cell has. *)
Definition vertex (c : Cell) (i : nat) : Result Handle :=
  match cell_vertices c !! i with
  | Some v => Ok v
  | None => Throw Undefined
  end.

End CGAL.

(** ** Traits of CGAL triangulations (src/unnamed/part_000) *)

Module CGALTraits.
Import CGAL.

Module Cells.
Definition get (grid : Triangulation) : list Cell :=
  if grid2d grid then finite_face_handles grid
  else finite_cell_handles grid.
End Cells.

Module Points.
Definition get (grid : Triangulation) : list Handle :=
  finite_vertex_handles grid.
End Points.

Module PointId.
Definition get (grid : Triangulation) (v : Handle) : N :=
  Handle_hash_function grid v.
End PointId.

Module CellType.
Definition get (grid : Triangulation) (c : Cell) : CellType :=
  if grid2d grid then triangle else tetrahedron.
End CellType.

Module NumberOfPoints.
Definition get (grid : Triangulation) : nat := number_of_vertices grid.
End NumberOfPoints.

Module NumberOfCells.
Definition get (grid : Triangulation) : nat :=
  if grid2d grid then number_of_faces grid
  else number_of_finite_cells grid.
End NumberOfCells.

Module NumberOfCellPoints.
Definition get (grid : Triangulation) (c : Cell) : nat :=
  if grid2d grid then 3 else 4.
End NumberOfCellPoints.

Module CellPoints.
Definition get (grid : Triangulation) (cell : Cell) : Result (list Handle) :=
  let num_corners := if grid2d grid then 3 else 4 in
  mapM (fun i => vertex cell i) (seq 0 num_corners).
End CellPoints.

End CGALTraits.

(** ** The parts of dune-geometry and dune-grid the traits call

    [Dune::GeometryType] is a topology id, a dimension and the "none" flag,
    with the predicates of [dune/geometry/type.hh].  A grid view holds the
    entities of one process, each with its codimension and partition type;
    [size] counts the entities of a codimension, the partition iterators
    visit those of the requested partition set. *)

Module Dune.

Record GeometryType : Type := {
  topologyId : N;
  dim : N;
  none : bool
}.

Definition isVertex (gt : GeometryType) : bool := (dim gt =? 0)%N.
Definition isLine (gt : GeometryType) : bool := (dim gt =? 1)%N.
Definition isTriangle (gt : GeometryType) : bool :=
  negb (none gt) && (dim gt =? 2)%N && (N.lor (topologyId gt) 1 =? 1)%N.
Definition isQuadrilateral (gt : GeometryType) : bool :=
  negb (none gt) && (dim gt =? 2)%N && (N.lor (topologyId gt) 1 =? 3)%N.
Definition isTetrahedron (gt : GeometryType) : bool :=
  negb (none gt) && (dim gt =? 3)%N && (N.lor (topologyId gt) 1 =? 1)%N.
Definition isPyramid (gt : GeometryType) : bool :=
  negb (none gt) && (dim gt =? 3)%N && (N.lor (topologyId gt) 1 =? 3)%N.
Definition isPrism (gt : GeometryType) : bool :=
  negb (none gt) && (dim gt =? 3)%N && (N.lor (topologyId gt) 1 =? 5)%N.
Definition isHexahedron (gt : GeometryType) : bool :=
  negb (none gt) && (dim gt =? 3)%N && (N.lor (topologyId gt) 1 =? 7)%N.

(** [GeometryType{id, dim}] and [gt.id()] *)
Definition make (id d : N) : GeometryType :=
  {| topologyId := id; dim := d; none := false |}.
Definition id (gt : GeometryType) : N := topologyId gt.

(** [GeometryType::operator<]: by dimension, then by the topology id
    without its lowest bit; the "none" flag takes no part. *)
Definition less (a b : GeometryType) : bool :=
  (dim a <? dim b)%N
  || ((dim b =? dim a)%N
      && (N.shiftr (topologyId a) 1 <? N.shiftr (topologyId b) 1)%N).

(** [Dune::GeometryTypes::...] *)
Definition point : GeometryType := make 0 0.
Definition line : GeometryType := make 0 1.
Definition simplex2 : GeometryType := make 0 2.
Definition cube2 : GeometryType := make 3 2.
Definition simplex3 : GeometryType := make 0 3.
Definition pyramid : GeometryType := make 3 3.
Definition cube3 : GeometryType := make 7 3.

Inductive PartitionType : Type :=
| InteriorEntity | BorderEntity | OverlapEntity | FrontEntity | GhostEntity.

Inductive PartitionIteratorType : Type :=
| Interior_Partition | InteriorBorder_Partition | Overlap_Partition
| OverlapFront_Partition | All_Partition | Ghost_Partition.

(** Which entities an iterator of the given kind visits. *)
Definition visits (pit : PartitionIteratorType) (p : PartitionType) : bool :=
  match pit, p with
  | Interior_Partition, InteriorEntity => true
  | InteriorBorder_Partition, (InteriorEntity | BorderEntity) => true
  | Overlap_Partition, (InteriorEntity | BorderEntity | OverlapEntity) => true
  | OverlapFront_Partition,
    (InteriorEntity | BorderEntity | OverlapEntity | FrontEntity) => true
  | All_Partition, _ => true
  | Ghost_Partition, GhostEntity => true
  | _, _ => false
  end.

(** An entity: [index] is its index in the view's index set, [corners]
    are its sub-entities of codimension [dimension] (its vertices). *)
#[local] Unset Elimination Schemes.
Inductive Entity : Type := mkEntity {
  codimension : nat;
  partitionType : PartitionType;
  type : GeometryType;
  level : nat;
  index : N;
  corners : list Entity
}.
#[local] Set Elimination Schemes.

Record GridView : Type := {
  dimension : nat;
  comm_size : Z;               (* grid_view.comm().size() *)
  entities : list Entity       (* every entity stored on this process *)
}.

(** [grid_view.size(codim)]: the entities of the codimension stored on
    the process, of every partition type. *)
Definition size (gv : GridView) (codim : nat) : nat :=
  length (filter (fun e => Nat.eqb (codimension e) codim) (entities gv)).

(** [subrange(grid_view.begin<codim, pit>(), grid_view.end<codim, pit>())] *)
Definition range (gv : GridView) (codim : nat) (pit : PartitionIteratorType)
  : list Entity :=
  filter (fun e => Nat.eqb (codimension e) codim && visits pit (partitionType e))
         (entities gv).

(** The index set numbers the entities of one geometry type
    consecutively from zero; the vertices are of one type, so every
    number below their count is the index of a stored vertex. *)
Definition index_set_consecutive (gv : GridView) (codim : nat) : Prop :=
  forall i, i < size gv codim ->
    exists e, e ∈ entities gv /\ codimension e = codim
              /\ index e = N.of_nat i.

(** [element.subEntities(dim)] and [element.subEntity<dim>(i)] *)
Definition subEntities (e : Entity) : nat := length (corners e).
Definition subEntity (e : Entity) (i : Z) : Result Entity :=
  if (i <? 0)%Z then Throw Undefined
  else match corners e !! Z.to_nat i with
       | Some v => Ok v
       | None => Throw Undefined
       end.


(** *** YaspGrid

    A level of a YaspGrid has its coordinate container and, per
    codimension, the list of interior grid components; a component
    knows the smallest and largest index it covers along each axis. *)

Record YGridComponent : Type := {
  min : nat -> Z;               (* int *)
  max : nat -> Z
}.

Record YGridLevel : Type := {
  coordinate : nat -> Z -> Q;   (* coords.coordinate(direction, index) *)
  interior : list (list YGridComponent)
}.

Record YaspGridView : Type := {
  view :> GridView;
  levels : list YGridLevel      (* *grid().begin(level) *)
}.

(** Dereferencing an iterator or indexing an array: undefined past the
    end. *)
Definition deref {A : Type} (o : option A) : Result A :=
  match o with
  | Some a => Ok a
  | None => Throw Undefined
  end.

End Dune.

(** ** Traits of [Dune::GridView] (src/unnamed/part_001) *)

Module DuneDetail.
Import Dune.

(** [map[i]] after [assert(i < n)] *)
Definition table_at (map : list Z) (i : Z) : Result Z :=
  if (i <? Z.of_nat (length map))%Z && (0 <=? i)%Z
  then match map !! Z.to_nat i with
       | Some k => Ok k
       | None => Throw Undefined
       end
  else Throw Undefined.

Definition map_corner_index (gt : GeometryType) (i : Z) : Result Z :=
  if isQuadrilateral gt then table_at [0; 1; 3; 2]%Z i
  else if isHexahedron gt then table_at [0; 1; 3; 2; 4; 5; 7; 6]%Z i
  else Ok i.

Definition cell_type (gt : GeometryType) : Result CellType :=
  if isVertex gt then Ok vertex
  else if isLine gt then Ok segment
  else if isTriangle gt then Ok triangle
  else if isQuadrilateral gt then Ok quadrilateral
  else if isTetrahedron gt then Ok tetrahedron
  else if isHexahedron gt then Ok hexahedron
  else Throw (NotImplemented "Unknown Dune::GeometryType").

End DuneDetail.

Module DuneTraits.
Import Dune.

Module Points.
Definition get (grid_view : GridView) : list Entity :=
  range grid_view (dimension grid_view) InteriorBorder_Partition.
End Points.

Module Cells.
Definition get (grid_view : GridView) : list Entity :=
  range grid_view 0 Interior_Partition.
End Cells.

Module NumberOfPoints.
Definition get (grid_view : GridView) : nat :=
  let point_codim := dimension grid_view in
  if (comm_size grid_view =? 1)%Z then size grid_view point_codim
  else length (Points.get grid_view).
End NumberOfPoints.

Module NumberOfCells.
Definition get (grid_view : GridView) : nat :=
  if (comm_size grid_view =? 1)%Z then size grid_view 0
  else length (Cells.get grid_view).
End NumberOfCells.

Module NumberOfCellPoints.
Definition get (grid_view : GridView) (cell : Entity) : nat :=
  subEntities cell.
End NumberOfCellPoints.

Module CellPoints.
Definition get (grid_view : GridView) (element : Entity)
  : Result (list Entity) :=
  mapM (fun i : nat =>
          k <- DuneDetail.map_corner_index (type element) (Z.of_nat i) ;;
          subEntity element k)
       (seq 0 (subEntities element)).
End CellPoints.

Module CellType.
Definition get (grid_view : GridView) (element : Entity) : Result CellType :=
  DuneDetail.cell_type (type element).
End CellType.

Module PointId.
Definition get (grid_view : GridView) (vertex : Entity) : N :=
  index vertex.
End PointId.


(** The level of the first cell, that level of the grid and the bounds
    of its first interior component of codimension 0, as the structured
    traits look them up. *)
Definition interior_bounds (grid_view : YaspGridView)
  : Result (YGridLevel * YGridComponent) :=
  cell <- deref (head (Cells.get grid_view)) ;;
  grid_level <- deref (levels grid_view !! level cell) ;;
  interior_grid <- deref (interior grid_level !! 0) ;;
  gc <- deref (head interior_grid) ;;
  Ok (grid_level, gc).

Module Extents.
Definition get (grid_view : YaspGridView) : Result (list Z) :=
  r <- interior_bounds grid_view ;;
  let gc := snd r in
  Ok (map (fun i => to_size_t (int_add (int_sub (max gc i) (min gc i)) 1))
          (seq 0 (dimension grid_view))).
End Extents.

Module Ordinates.
(** [std::vector<ctype>(n)]: too many elements throw. *)
Definition make_vector (n : Z) : Result (list Q) :=
  if (n <? 0)%Z then Throw LengthError
  else Ok (replicate (Z.to_nat n) 0%Q).

Definition get (grid_view : YaspGridView) (direction : nat)
  : Result (list Q) :=
  r <- interior_bounds grid_view ;;
  let grid_level := fst r in
  let extent_bounds := snd r in
  let num_point_ordinates :=
    int_add (int_sub (max extent_bounds direction)
                     (min extent_bounds direction)) 2 in
  ordinates <- make_vector num_point_ordinates ;;
  Ok (fold_left
        (fun ordinates i =>
           <[i := coordinate grid_level direction
                    (int_add (min extent_bounds direction) (Z.of_nat i))]>
             ordinates)
        (seq 0 (Z.to_nat num_point_ordinates))
        ordinates).
End Ordinates.

Module Origin.
Definition get (grid_view : YaspGridView) : Result (list Q) :=
  r <- interior_bounds grid_view ;;
  let grid_level := fst r in
  let extent_bounds := snd r in
  Ok (map (fun i => coordinate grid_level i (min extent_bounds i))
          (seq 0 (dimension grid_view))).
End Origin.

Module Location.
(** [coord] is the index tuple of the entity's YaspGrid iterator,
    [entity.impl().transformingsubiterator().coord()]. *)
Definition get (grid_view : YaspGridView) (entity : Entity) (coord : nat -> Z)
  : Result (list Z) :=
  grid_level <- deref (levels grid_view !! level entity) ;;
  interior <- deref (interior grid_level !! 0) ;;
  extent_bounds <- deref (head interior) ;;
  Ok (map (fun i => int_sub (coord i) (min extent_bounds i))
          (seq 0 (dimension grid_view))).
End Location.

End DuneTraits.

(** ** [DuneLagrangeDetail] (src/unnamed/part_001) *)

Module DuneLagrangeDetail.
Import Dune.

Definition dune_to_gfmt_sub_entity (gt : GeometryType) (i : Z) (codim : nat)
  : Result Z :=
  if isTriangle gt && Nat.eqb codim 1 then DuneDetail.table_at [0; 2; 1]%Z i
  else if isQuadrilateral gt && Nat.eqb codim 2
    then DuneDetail.table_at [0; 1; 3; 2]%Z i
  else if isQuadrilateral gt && Nat.eqb codim 1
    then DuneDetail.table_at [3; 1; 0; 2]%Z i
  else if isTetrahedron gt && Nat.eqb codim 2
    then DuneDetail.table_at [0; 2; 1; 3; 4; 5]%Z i
  else if isTetrahedron gt && Nat.eqb codim 1
    then DuneDetail.table_at [3; 0; 2; 1]%Z i
  else if isHexahedron gt && Nat.eqb codim 3
    then DuneDetail.table_at [0; 1; 3; 2; 4; 5; 7; 6]%Z i
  else if isHexahedron gt && Nat.eqb codim 2
    then DuneDetail.table_at [8; 9; 11; 10; 3; 1; 0; 2; 7; 5; 4; 6]%Z i
  else Ok i.

Definition cell_type (gt : GeometryType) : Result CellType :=
  if isLine gt then Ok lagrange_segment
  else if isTriangle gt then Ok lagrange_triangle
  else if isQuadrilateral gt then Ok lagrange_quadrilateral
  else if isTetrahedron gt then Ok lagrange_tetrahedron
  else if isHexahedron gt then Ok lagrange_hexahedron
  else Throw (NotImplemented "Unsupported Dune::GeometryType").

End DuneLagrangeDetail.

(** ** [DuneLagrangeMesh] (src/unnamed/part_001) *)

(** The points of [Dune::EquidistantPointSet]: a local key (sub-entity,
    codimension, index on the sub-entity) and a local position. *)
Module LagrangePoint.

Record LocalKey : Type := {
  subEntity : nat;
  codim : nat;
  index : nat
}.

Record LocalPoint (Local : Type) : Type := {
  localKey : LocalKey;
  point : Local
}.
Arguments localKey {Local} _.
Arguments point {Local} _.

End LagrangePoint.

Module DuneLagrange.
Export LagrangePoint (LocalKey, LocalPoint, localKey).

(** What the mesh uses of the grid view: its elements with their geometry
    types, sub-entity counts and geometry, the sub-entity indices of the
    mapper of each codimension, and the point set of an order and type. *)

Record GridViewOps (GridView Element Local Position : Type) : Type := {
  dimension : nat;
  grid_cells : GridView -> list Element;  (* Traits::Cells<GridView>::get *)
  types : GridView -> list Dune.GeometryType;     (* indexSet().types(0) *)
  type : Element -> Dune.GeometryType;
  subEntities : Element -> nat -> nat;
  global : Element -> Local -> Position;  (* element.geometry().global(x) *)
  subIndex : GridView -> nat -> Element -> nat -> nat;
  build : nat -> Dune.GeometryType -> list (LocalPoint Local)
}.
Arguments dimension {GridView Element Local Position} _.
Arguments grid_cells {GridView Element Local Position} _ _.
Arguments types {GridView Element Local Position} _ _.
Arguments type {GridView Element Local Position} _ _.
Arguments subEntities {GridView Element Local Position} _ _ _.
Arguments global {GridView Element Local Position} _ _ _.
Arguments subIndex {GridView Element Local Position} _ _ _ _ _.
Arguments build {GridView Element Local Position} _ _ _.

(** [_local_points] is a [std::map] ordered by [GeometryType::operator<]:
    [emplace] and [at] take two keys for the same one when neither is
    less than the other. *)
Definition same_key (a b : Dune.GeometryType) : bool :=
  negb (Dune.less a b) && negb (Dune.less b a).

Module PointIndicesHelper.

Record Key : Type := {
  codim : nat;
  global_index : nat;
  sub_index : nat
}.

#[global] Instance Key_eq_dec : EqDecision Key.
Proof. solve_decision. Defined.

Abbreviation t := (gmap nat (gmap nat (gmap nat nat))).

Definition contains (m : t) (key : Key) : bool :=
  match m !! codim key with
  | None => false
  | Some by_entity =>
      match by_entity !! global_index key with
      | None => false
      | Some by_sub => bool_decide (is_Some (by_sub !! sub_index key))
      end
  end.

(** [m[codim][global_index][sub_index] = index], the inner maps created
    on first use. *)
Definition insert (m : t) (key : Key) (index : nat) : t :=
  let by_entity := default ∅ (m !! codim key) in
  let by_sub := default ∅ (by_entity !! global_index key) in
  <[codim key := <[global_index key := <[sub_index key := index]> by_sub]>
                   by_entity]> m.

Definition get (m : t) (codim global_index : nat) : Result (gmap nat nat) :=
  match m !! codim with
  | None => Throw OutOfRange
  | Some by_entity =>
      match by_entity !! global_index with
      | None => Throw OutOfRange
      | Some by_sub => Ok by_sub
      end
  end.

(** The index stored under a key, if any. *)
Definition lookup (m : t) (key : Key) : option nat :=
  by_entity ← m !! codim key;
  by_sub ← by_entity !! global_index key;
  by_sub !! sub_index key.

(** The tables that arise: the empty one and those made by [insert]. *)
Inductive built : t -> Prop :=
| built_empty : built ∅
| built_insert (m : t) (key : Key) (index : nat) :
    built m -> built (insert m key index).

(** Every stored index is a position in a point list of length [n]. *)
Definition indices_below (m : t) (n : nat) : Prop :=
  forall key v, lookup m key = Some v -> v < n.

End PointIndicesHelper.

Section Mesh.
Context {GridView Element Local Position : Type}.
Variable ops : GridViewOps GridView Element Local Position.

Record Mesh : Type := {
  _grid_view : GridView;
  _order : nat;
  _points : list Position;
  _cells : list (list nat);
  _cell_topology_id : list N;
  _local_points : list (Dune.GeometryType * list (LocalPoint Local))
}.

(** [v.at(i)] *)
Definition at_ {A : Type} (v : list A) (i : nat) : Result A :=
  match v !! i with
  | Some a => Ok a
  | None => Throw OutOfRange
  end.

(** [_local_points.at(gt)] *)
Definition local_points_at
    (local_points : list (Dune.GeometryType * list (LocalPoint Local)))
    (gt : Dune.GeometryType) : Result (list (LocalPoint Local)) :=
  match List.find (fun entry => same_key (fst entry) gt) local_points with
  | Some entry => Ok (snd entry)
  | None => Throw OutOfRange
  end.

Definition number_of_points (mesh : Mesh) : nat := length (_points mesh).
Definition number_of_cells (mesh : Mesh) : nat := length (_cells mesh).
Definition point (mesh : Mesh) (i : nat) : Result Position :=
  at_ (_points mesh) i.
Definition cell_points (mesh : Mesh) (i : nat) : Result (list nat) :=
  at_ (_cells mesh) i.

Definition geometry_type (mesh : Mesh) (i : nat) : Result Dune.GeometryType :=
  id <- at_ (_cell_topology_id mesh) i ;;
  Ok (Dune.make id (N.of_nat (dimension ops))).

Definition clear (mesh : Mesh) : Mesh :=
  {| _grid_view := _grid_view mesh;
     _order := _order mesh;
     _points := [];
     _cells := [];
     _cell_topology_id := [];
     _local_points := [] |}.

(** [emplace] keeps an entry that is already there; [build] then fills
    the entry of the key. *)
Definition _update_local_points (grid_view : GridView) (order : nat)
  : list (Dune.GeometryType * list (LocalPoint Local)) :=
  fold_left
    (fun local_points gt =>
       if existsb (fun entry => same_key (fst entry) gt) local_points
       then map (fun entry =>
                   if same_key (fst entry) gt
                   then (fst entry, build ops order gt) else entry)
                local_points
       else local_points ++ [(gt, build ops order gt)])
    (types ops grid_view) [].

(** [codim_to_mapper.at(codim)]: mappers exist for the codimensions 0 and
    1, for 2 from dimension two on and for 3 in dimension three. *)
Definition has_mapper (codim : nat) : bool :=
  match codim with
  | 0 | 1 => true
  | 2 => (2 <=? dimension ops)%nat
  | 3 => (dimension ops =? 3)%nat
  | _ => false
  end.

Definition mapper_at (grid_view : GridView) (codim : nat)
  : Result (Element -> nat -> nat) :=
  if has_mapper codim then Ok (subIndex ops grid_view codim)
  else Throw OutOfRange.

Definition make_point (grid_view : GridView) (element : Element)
    (state : PointIndicesHelper.t * list Position)
    (local_point : LocalPoint Local)
  : Result (PointIndicesHelper.t * list Position) :=
  let '(point_indices, points) := state in
  let codim := LagrangePoint.codim (localKey local_point) in
  let sub_entity := LagrangePoint.subEntity (localKey local_point) in
  let sub_index := LagrangePoint.index (localKey local_point) in
  mapper <- mapper_at grid_view codim ;;
  let global_index := mapper element sub_entity in
  let key := PointIndicesHelper.Build_Key codim global_index sub_index in
  if PointIndicesHelper.contains point_indices key then Ok state
  else
    let points :=
      points ++ [global ops element (LagrangePoint.point local_point)] in
    Ok (PointIndicesHelper.insert point_indices key (length points - 1),
        points).

Definition _make_points (grid_view : GridView)
    (local_points : list (Dune.GeometryType * list (LocalPoint Local)))
    (state : PointIndicesHelper.t * list Position)
  : Result (PointIndicesHelper.t * list Position) :=
  foldM (fun state element =>
           element_points <- local_points_at local_points (type ops element) ;;
           foldM (make_point grid_view element) element_points state)
        (grid_cells ops grid_view) state.

(** [v.resize(n)] *)
Definition resize (n : nat) (v : list nat) : list nat :=
  take n v ++ replicate (n - length v) 0.

(** [v[i] = x] *)
Definition store {A : Type} (v : list A) (i : nat) (x : A) : Result (list A) :=
  if (i <? length v)%nat then Ok (<[i := x]> v) else Throw Undefined.

(** [v[i]] with a signed index *)
Definition fetch {A : Type} (v : list A) (i : Z) : Result A :=
  if (i <? 0)%Z then Throw Undefined
  else match v !! Z.to_nat i with
       | Some a => Ok a
       | None => Throw Undefined
       end.

Definition fill_sub_entity (grid_view : GridView)
    (point_indices : PointIndicesHelper.t) (element : Element) (codim : nat)
    (codim_points : list (list nat)) (sub_entity : nat)
  : Result (list (list nat)) :=
  mapped_sub_entity <-
    DuneLagrangeDetail.dune_to_gfmt_sub_entity
      (type ops element) (Z.of_nat sub_entity) codim ;;
  mapper <- mapper_at grid_view codim ;;
  let global_index := mapper element sub_entity in
  if PointIndicesHelper.contains point_indices
       (PointIndicesHelper.Build_Key codim global_index 0)
  then
    indices <- PointIndicesHelper.get point_indices codim global_index ;;
    sub_points <- fetch codim_points mapped_sub_entity ;;
    sub_points <-
      foldM (fun sub_points entry => store sub_points (fst entry) (snd entry))
            (map_to_list indices)
            (resize (size indices) sub_points) ;;
    Ok (<[Z.to_nat mapped_sub_entity := sub_points]> codim_points)
  else Ok codim_points.

Definition connect_codim (grid_view : GridView)
    (point_indices : PointIndicesHelper.t) (element : Element)
    (cell_points : list nat) (codim : nat) : Result (list nat) :=
  codim_points <-
    foldM (fill_sub_entity grid_view point_indices element codim)
          (seq 0 (subEntities ops element codim))
          (replicate (subEntities ops element codim) []) ;;
  Ok (cell_points ++ concat codim_points).

Definition _set_connectivity (grid_view : GridView)
    (point_indices : PointIndicesHelper.t)
    (state : list (list nat) * list N)
  : Result (list (list nat) * list N) :=
  foldM (fun state element =>
           let '(cells, cell_topology_id) := state in
           let cell_topology_id :=
             cell_topology_id ++ [Dune.id (type ops element)] in
           cell_points <-
             foldM (connect_codim grid_view point_indices element)
                   (rev (seq 0 (S (dimension ops)))) [] ;;
           Ok (cells ++ [cell_points], cell_topology_id))
        (grid_cells ops grid_view) state.

Definition _update_mesh (mesh : Mesh) : Result Mesh :=
  made <- _make_points (_grid_view mesh) (_local_points mesh)
            (∅, _points mesh) ;;
  connected <- _set_connectivity (_grid_view mesh) (fst made)
                 (_cells mesh, _cell_topology_id mesh) ;;
  Ok {| _grid_view := _grid_view mesh;
        _order := _order mesh;
        _points := snd made;
        _cells := fst connected;
        _cell_topology_id := snd connected;
        _local_points := _local_points mesh |}.

Definition update (mesh : Mesh) (grid_view : GridView) : Result Mesh :=
  let mesh := clear mesh in
  _update_mesh
    {| _grid_view := grid_view;
       _order := _order mesh;
       _points := _points mesh;
       _cells := _cells mesh;
       _cell_topology_id := _cell_topology_id mesh;
       _local_points := _update_local_points grid_view (_order mesh) |}.

(** The constructor: members first, then [update], then the order check. *)
Definition construct (grid_view : GridView) (order : nat) : Result Mesh :=
  mesh <- update {| _grid_view := grid_view; _order := order;
                    _points := []; _cells := []; _cell_topology_id := [];
                    _local_points := [] |} grid_view ;;
  if (order <? 1)%nat then Throw (InvalidState "Order must be >= 1")
  else Ok mesh.

(** The key under which [_make_points] files a local point of an element. *)
Definition key_of (grid_view : GridView) (element : Element)
    (lp : LocalPoint Local) : PointIndicesHelper.Key :=
  PointIndicesHelper.Build_Key
    (LagrangePoint.codim (localKey lp))
    (subIndex ops grid_view (LagrangePoint.codim (localKey lp)) element
       (LagrangePoint.subEntity (localKey lp)))
    (LagrangePoint.index (localKey lp)).

(** The keys filed for the elements of a list. *)
Definition filed
    (grid_view : GridView)
    (local_points : list (Dune.GeometryType * list (LocalPoint Local)))
    (elements : list Element) (key : PointIndicesHelper.Key) : Prop :=
  exists element element_points lp,
    element ∈ elements
    /\ local_points_at local_points (type ops element) = Ok element_points
    /\ lp ∈ element_points
    /\ key = key_of grid_view element lp.

(** Each position of the point list is stored under exactly one key. *)
Definition one_key_per_point
    (state : PointIndicesHelper.t * list Position) : Prop :=
  PointIndicesHelper.built (fst state)
  /\ (forall j, j < length (snd state) <->
        exists key, PointIndicesHelper.lookup (fst state) key = Some j)
  /\ forall key key' j,
       PointIndicesHelper.lookup (fst state) key = Some j ->
       PointIndicesHelper.lookup (fst state) key' = Some j -> key = key'.

(** Every point index of every cell names a stored point. *)
Definition connectivity_in_range (mesh : Mesh) : Prop :=
  forall i, i < number_of_cells mesh ->
    exists cell, cell_points mesh i = Ok cell
      /\ forall j, j ∈ cell ->
           j < number_of_points mesh /\ exists p, point mesh j = Ok p.

(** The keys of the points on one sub-entity are numbered from zero
    without gaps. *)
Definition consecutive (local_points : list (LocalPoint Local)) : Prop :=
  forall lp, lp ∈ local_points ->
    forall k, k < LagrangePoint.index (localKey lp) ->
      exists lp', lp' ∈ local_points
        /\ LagrangePoint.codim (localKey lp')
           = LagrangePoint.codim (localKey lp)
        /\ LagrangePoint.subEntity (localKey lp')
           = LagrangePoint.subEntity (localKey lp)
        /\ LagrangePoint.index (localKey lp') = k.

(** What Dune provides for a grid view of dimension at most three: a
    point set for the type of every element, whose keys are consecutive
    and of a codimension of the grid, and sub-entity counts that match
    the renumbering tables. *)
Definition well_formed (grid_view : GridView) (order : nat) : Prop :=
  dimension ops <= 3
  /\ forall element, element ∈ grid_cells ops grid_view ->
       (exists local_points,
          local_points_at (_update_local_points grid_view order)
            (type ops element) = Ok local_points
          /\ consecutive local_points
          /\ forall lp, lp ∈ local_points ->
               LagrangePoint.codim (localKey lp) <= dimension ops)
       /\ forall codim sub_entity,
            codim <= dimension ops ->
            sub_entity < subEntities ops element codim ->
            exists mapped,
              DuneLagrangeDetail.dune_to_gfmt_sub_entity
                (type ops element) (Z.of_nat sub_entity) codim = Ok mapped
              /\ (0 <= mapped < Z.of_nat (subEntities ops element codim))%Z.

(** *** The traits of the mesh *)

Definition Points_get (mesh : Mesh) : list nat :=
  seq 0 (number_of_points mesh).
Definition Cells_get (mesh : Mesh) : list nat :=
  seq 0 (number_of_cells mesh).
Definition NumberOfPoints_get (mesh : Mesh) : nat := number_of_points mesh.
Definition NumberOfCells_get (mesh : Mesh) : nat := number_of_cells mesh.
Definition CellPoints_get (mesh : Mesh) (cell_index : nat)
  : Result (list nat) := cell_points mesh cell_index.
Definition CellType_get (mesh : Mesh) (cell_index : nat) : Result CellType :=
  gt <- geometry_type mesh cell_index ;; DuneLagrangeDetail.cell_type gt.
Definition PointCoordinates_get (mesh : Mesh) (point_index : nat)
  : Result Position := point mesh point_index.
Definition PointId_get (mesh : Mesh) (point_index : nat) : nat := point_index.

End Mesh.

End DuneLagrange.

(** ** test/api/test_generic_parallel_writer.cpp *)

Module ParallelTest.

(** The three constructor arguments of [ImageGrid<2, double>]. *)
Record ImageGrid : Type := {
  origin : Q * Q;
  size : Q * Q;
  cells : N * N
}.

(** [main] up to the construction of the grid of this rank; the writes
    that follow take the grid as it is. *)
Definition main (comm_size rank : Z) : Result ImageGrid :=
  if negb (Z.rem comm_size 2 =? 0)%Z
  then Throw (ValueError "Communicator size must be a multiple of 2")
  else
    let xoffset := inject_Z (Z.rem rank 2) in
    let yoffset := inject_Z (Z.quot rank 2) in
    Ok {| origin := (xoffset, yoffset);
          size := (1, 1)%Q;
          cells := (10, 15)%N |}.

(** The region a piece occupies: from its origin, its size along each
    axis, the upper faces left to the neighbour. *)
Definition covers (grid : ImageGrid) (x y : Q) : Prop :=
  (fst (origin grid) <= x /\ x < fst (origin grid) + fst (size grid))%Q
  /\ (snd (origin grid) <= y /\ y < snd (origin grid) + snd (size grid))%Q.

(** Modelled from the spec: the parallel writer, which is not part of the
    sources at hand.  Every process writes one piece file, named after the
    output with its rank as suffix, and the summary file of the run lists
    one reference per piece. *)
Definition piece_filename (name : string) (rank : nat) : string :=
  name +:+ "-" +:+ to_string (N.of_nat rank).

Definition summary_pieces (name : string) (comm_size : nat) : list string :=
  map (piece_filename name) (seq 0 comm_size).

End ParallelTest.

(** ** The corner order of the output format *)

(** Position [i] of a quadrilateral or hexahedron in the output takes the
    Dune corner with this number; other shapes keep the Dune order. *)
Definition canonical_corner (gt : Dune.GeometryType) (i : nat) : nat :=
  if Dune.isQuadrilateral gt then nth i [0; 1; 3; 2] i
  else if Dune.isHexahedron gt then nth i [0; 1; 3; 2; 4; 5; 7; 6] i
  else i.

(** The higher-order variant of a linear cell type; a vertex has none. *)
Definition lagrange_variant (ct : CellType) : option CellType :=
  match ct with
  | segment => Some lagrange_segment
  | triangle => Some lagrange_triangle
  | quadrilateral => Some lagrange_quadrilateral
  | tetrahedron => Some lagrange_tetrahedron
  | hexahedron => Some lagrange_hexahedron
  | _ => None
  end.

(** ** Sample grids *)

Module Samples.
Import Dune.

Definition vertex_entity (d : nat) (p : PartitionType) (i : N) : Entity :=
  mkEntity d p point 0 i [].

(** A periodic one-dimensional YaspGrid with two cells and overlap one,
    on a single process: the cells [-1,0] and [2,3] are the periodic
    copies, stored as overlap entities. *)
Definition periodic_vertices : list Entity :=
  [vertex_entity 1 FrontEntity 0; vertex_entity 1 BorderEntity 1;
   vertex_entity 1 InteriorEntity 2; vertex_entity 1 BorderEntity 3;
   vertex_entity 1 FrontEntity 4].

Definition periodic_cell (p : PartitionType) (i : N) : Entity :=
  mkEntity 0 p line 0 i
    (take 2 (drop (N.to_nat i) periodic_vertices)).

Definition periodic_view : GridView :=
  {| dimension := 1;
     comm_size := 1;
     entities :=
       [periodic_cell OverlapEntity 0; periodic_cell InteriorEntity 1;
        periodic_cell InteriorEntity 2; periodic_cell OverlapEntity 3]
       ++ periodic_vertices |}.

(** One quadrilateral of a two-dimensional grid split over two
    processes, with a ghost copy of the neighbour's cell. *)
Definition quad_vertices : list Entity :=
  [vertex_entity 2 InteriorEntity 0; vertex_entity 2 BorderEntity 1;
   vertex_entity 2 InteriorEntity 2; vertex_entity 2 BorderEntity 3;
   vertex_entity 2 GhostEntity 4; vertex_entity 2 GhostEntity 5].

Definition quad_element : Entity :=
  mkEntity 0 InteriorEntity cube2 0 0 (take 4 quad_vertices).

Definition ghost_element : Entity :=
  mkEntity 0 GhostEntity cube2 0 1
    [vertex_entity 2 BorderEntity 1; vertex_entity 2 GhostEntity 4;
     vertex_entity 2 BorderEntity 3; vertex_entity 2 GhostEntity 5].

Definition quad_view : GridView :=
  {| dimension := 2;
     comm_size := 2;
     entities := [quad_element; ghost_element] ++ quad_vertices |}.

(** A two-dimensional triangulation of three points: one finite face and
    the three faces towards the infinite vertex. *)
Definition triangle_grid : CGAL.Triangulation :=
  {| CGAL.grid2d := true;
     CGAL.sizeof_vertex := 48%N;
     CGAL.infinite_vertex := 4800%N;
     CGAL.tds_vertices := [4800; 4848; 4896; 4944]%N;
     CGAL.tds_cells :=
       [ {| CGAL.cell_address := 9000%N;
            CGAL.cell_vertices := [4848; 4896; 4944]%N |};
         {| CGAL.cell_address := 9064%N;
            CGAL.cell_vertices := [4896; 4848; 4800]%N |};
         {| CGAL.cell_address := 9128%N;
            CGAL.cell_vertices := [4944; 4896; 4800]%N |};
         {| CGAL.cell_address := 9192%N;
            CGAL.cell_vertices := [4848; 4944; 4800]%N |} ] |}.

(** A 3 x 2 YaspGrid on one process, cell indices 0..2 and 0..1. *)
Definition yasp_cell (i : N) : Entity :=
  mkEntity 0 InteriorEntity cube2 0 i [].

Definition yasp_view : YaspGridView :=
  {| view := {| dimension := 2; comm_size := 1;
                entities := map yasp_cell [0; 1; 2; 3; 4; 5]%N |};
     levels :=
       [ {| coordinate := fun direction i => (i # 2)%Q;
            interior :=
              [ [ {| min := fun _ => 0%Z;
                     max := fun i => if Nat.eqb i 0 then 2%Z else 1%Z |} ] ]
         |} ] |}.

(** Two unit squares side by side as a grid view for the Lagrange mesh:
    six vertices numbered row by row, the three vertical edges numbered
    before the four horizontal ones, and the equidistant points of a
    quadrilateral (corners, edge points, interior points). *)
Definition quad_local_points (order : nat) (gt : GeometryType)
  : list (LagrangePoint.LocalPoint (Q * Q)) :=
  if isQuadrilateral gt then
    map (fun s =>
           LagrangePoint.Build_LocalPoint _
             (LagrangePoint.Build_LocalKey s 2 0)
             (inject_Z (Z.of_nat (s mod 2)), inject_Z (Z.of_nat (s / 2))))
        (seq 0 4)
    ++ flat_map
         (fun s =>
            map (fun i =>
                   let t := (Z.of_nat (S i) # Pos.of_nat order)%Q in
                   LagrangePoint.Build_LocalPoint _
                     (LagrangePoint.Build_LocalKey s 1 i)
                     (match s with
                      | 0 => (0%Q, t)
                      | 1 => (1%Q, t)
                      | 2 => (t, 0%Q)
                      | _ => (t, 1%Q)
                      end))
                (seq 0 (order - 1)))
         (seq 0 4)
    ++ map (fun i =>
              LagrangePoint.Build_LocalPoint _
                (LagrangePoint.Build_LocalKey 0 0 i)
                ((Z.of_nat (S (i mod (order - 1))) # Pos.of_nat order)%Q,
                 (Z.of_nat (S (i / (order - 1))) # Pos.of_nat order)%Q))
           (seq 0 ((order - 1) * (order - 1)))
  else [].

Definition two_quads : DuneLagrange.GridViewOps unit nat (Q * Q) (Q * Q) :=
  {| DuneLagrange.dimension := 2;
     DuneLagrange.grid_cells := fun _ => [0; 1];
     DuneLagrange.types := fun _ => [cube2];
     DuneLagrange.type := fun _ => cube2;
     DuneLagrange.subEntities :=
       fun _ codim => match codim with 0 => 1 | 1 | 2 => 4 | _ => 0 end;
     DuneLagrange.global :=
       fun element x => (inject_Z (Z.of_nat element) + fst x, snd x)%Q;
     DuneLagrange.subIndex :=
       fun _ codim element sub_entity =>
         match codim with
         | 0 => element
         | 1 => nth sub_entity
                  [element; element + 1; 3 + element; 5 + element] 0
         | _ => nth sub_entity
                  [element; element + 1; element + 3; element + 4] 0
         end;
     DuneLagrange.build := quad_local_points |}.

(** The corners of the reference triangle, its points of order one. *)
Definition triangle_local_points : list (LagrangePoint.LocalPoint (Q * Q)) :=
  map (fun i =>
         LagrangePoint.Build_LocalPoint _
           (LagrangePoint.Build_LocalKey i 2 0)
           (nth i [(0%Q, 0%Q); (1%Q, 0%Q); (0%Q, 1%Q)] (0%Q, 0%Q)))
      (seq 0 3).

(** A view of one triangle (element 0) next to one quadrilateral
    (element 1): vertices 0..4, edges 0..5; [listed] is what its index
    set returns as the geometry types of the elements. *)
Definition view_listing (listed : list GeometryType)
  : DuneLagrange.GridViewOps unit nat (Q * Q) (Q * Q) :=
  {| DuneLagrange.dimension := 2;
     DuneLagrange.grid_cells := fun _ => [0; 1];
     DuneLagrange.types := fun _ => listed;
     DuneLagrange.type :=
       fun element => match element with 0 => simplex2 | _ => cube2 end;
     DuneLagrange.subEntities :=
       fun element codim =>
         match codim, element with
         | 0, _ => 1
         | _, 0 => 3
         | _, _ => 4
         end;
     DuneLagrange.global :=
       fun element x =>
         match element with
         | 0 => (1 - fst x, snd x)%Q
         | _ => (1 + fst x, snd x)%Q
         end;
     DuneLagrange.subIndex :=
       fun _ codim element sub_entity =>
         match codim, element with
         | 0, _ => element
         | 1, 0 => nth sub_entity [0; 1; 2] 0
         | 1, _ => nth sub_entity [1; 3; 4; 5] 0
         | _, 0 => nth sub_entity [1; 0; 2] 0
         | _, _ => nth sub_entity [1; 3; 2; 4] 0
         end;
     DuneLagrange.build :=
       fun order gt =>
         if isTriangle gt then triangle_local_points
         else quad_local_points order gt |}.

Definition mixed_view : DuneLagrange.GridViewOps unit nat (Q * Q) (Q * Q) :=
  view_listing [simplex2; cube2].

(** The type [GeometryTypes::none(2)]. *)
Definition none2 : GeometryType :=
  {| topologyId := 0; dim := 2; none := true |}.

(** A mesh of order two before its first update. *)
Definition blank_mesh : @DuneLagrange.Mesh unit (Q * Q) (Q * Q) :=
  {| DuneLagrange._grid_view := tt;
     DuneLagrange._order := 2;
     DuneLagrange._points := [];
     DuneLagrange._cells := [];
     DuneLagrange._cell_topology_id := [];
     DuneLagrange._local_points := [] |}.

End Samples.

(** * Properties *)

Example attribute_name_uint32 : VTK.attribute_name_precision VTK.uint32 = "UInt32".
Proof. reflexivity. Qed.

Example attribute_name_float64 : VTK.attribute_name_precision VTK.float64 = "Float64".
Proof. reflexivity. Qed.

Example attribute_name_int64 : VTK.attribute_name_precision VTK.int64 = "Int64".
Proof. reflexivity. Qed.

(** C1.  Ascii with appended data and RawBinary with inlined data throw a
    [ValueError] whose message names the data format ("appended",
    "inlined") and the encoder ("ascii", "raw"); the four other
    combinations return their data-format name.  The function takes no
    stream: nothing can have been written when it throws. *)
Theorem data_format_name_legality (e : VTK.Encoder) (format : VTK.DataFormat) :
  match e, format with
  | VTK.Ascii, VTK.Appended =>
      exists msg, VTK.data_format_name e format = Throw (ValueError msg)
        /\ names "appended" msg = true
        /\ names "ascii" msg = true
        /\ msg = "VTK's 'appended' data format cannot be used with ascii encoding. Please choose 'GridFormat::VTK::inlined' or a different encoder."
  | VTK.RawBinary, VTK.Inlined =>
      exists msg, VTK.data_format_name e format = Throw (ValueError msg)
        /\ names "inlined" msg = true
        /\ names "raw" msg = true
        /\ msg = "VTK's 'inlined' data format cannot be used with raw encoding. Please choose 'GridFormat::VTK::appended' or a different encoder."
  | VTK.Ascii, VTK.Inlined => VTK.data_format_name e format = Ok "ascii"
  | VTK.Base64, VTK.Inlined => VTK.data_format_name e format = Ok "binary"
  | VTK.Base64, VTK.Appended => VTK.data_format_name e format = Ok "appended"
  | VTK.RawBinary, VTK.Appended =>
      VTK.data_format_name e format = Ok "appended"
  end.
Proof.
  destruct e, format; cbn [VTK.data_format_name VTK.data_format_name_fallback];
    try reflexivity; eexists; (split; [reflexivity|]); cbn; auto.
Qed.

Lemma to_string_decimal (n : N) :
  option_map N.of_uint (NilZero.uint_of_string (to_string n)) = Some n.
Proof.
  unfold to_string. rewrite NilZero.usu.
  - cbn. now rewrite DecimalN.Unsigned.of_to.
  - destruct n as [|p]; [discriminate|].
    intros Hnil. apply (f_equal N.of_uint) in Hnil.
    rewrite DecimalN.Unsigned.of_to in Hnil. discriminate.
Qed.

Lemma nzhead_not_zero (u v : Decimal.uint) :
  Decimal.nzhead u <> Decimal.D0 v.
Proof. induction u; cbn; congruence. Qed.

Lemma to_uint_no_leading_zero (n : N) (d : Decimal.uint) :
  N.to_uint n = Decimal.D0 d -> d = Decimal.Nil.
Proof.
  intros Hn.
  assert (Hnorm : Decimal.unorm (Decimal.D0 d) = Decimal.D0 d).
  { rewrite <- Hn at 1. rewrite <- DecimalN.Unsigned.to_of.
    now rewrite DecimalN.Unsigned.of_to. }
  rewrite DecimalFacts.unorm_D0 in Hnorm. unfold Decimal.unorm in Hnorm.
  destruct (Decimal.nzhead d) eqn:Hhead; try discriminate Hnorm.
  - now injection Hnorm as <-.
  - exfalso. apply (nzhead_not_zero d d). now rewrite Hhead, Hnorm.
Qed.

(** C8.  The attribute name of a precision is "Int", "UInt" or "Float"
    (signed integral, unsigned integral, non-integral) followed by the
    decimal rendering of eight times the size in bytes: the digits the
    standard decimal printer gives, which read back as that number and
    have no leading zero. *)
Theorem attribute_name_precision_spec (prec : VTK.DynamicPrecision) :
  (8 * VTK.size_in_bytes prec < 2 ^ 64)%N ->
  exists digits,
    VTK.attribute_name_precision prec =
      (match VTK.is_integral prec, VTK.is_signed prec with
       | true, true => "Int"
       | true, false => "UInt"
       | false, _ => "Float"
       end) +:+ digits
    /\ digits
       = NilZero.string_of_uint (N.to_uint (8 * VTK.size_in_bytes prec))
    /\ option_map N.of_uint (NilZero.uint_of_string digits)
       = Some (8 * VTK.size_in_bytes prec)%N
    /\ digits <> ""
    /\ forall rest, digits = String "0" rest -> rest = "".
Proof.
  intros Hsmall. exists (to_string (8 * VTK.size_in_bytes prec)).
  split; [|split; [reflexivity|split; [apply to_string_decimal|split]]].
  - unfold VTK.attribute_name_precision, VTK.prefix_of, size_t_mul.
    rewrite (N.mul_comm (VTK.size_in_bytes prec) 8), N.mod_small by exact Hsmall.
    now destruct (VTK.is_integral prec), (VTK.is_signed prec).
  - intros Hempty.
    pose proof (to_string_decimal (8 * VTK.size_in_bytes prec)) as Hparse.
    rewrite Hempty in Hparse. discriminate Hparse.
  - unfold to_string. intros rest Hrest.
    destruct (N.to_uint (8 * VTK.size_in_bytes prec)) as [|d|d|d|d|d|d|d|d|d|d]
      eqn:Hd; cbn in Hrest; try discriminate Hrest;
      injection Hrest as <-;
      first [ reflexivity | now rewrite (to_uint_no_leading_zero _ _ Hd) ].
Qed.

Lemma attribute_name_precision_spec_witness :
  (8 * VTK.size_in_bytes VTK.uint32 < 2 ^ 64)%N
  /\ VTK.attribute_name_precision VTK.uint32 = "UInt32".
Proof.
  split; [reflexivity|].
  destruct (attribute_name_precision_spec VTK.uint32 eq_refl)
    as (digits & Hname & Hdigits & _).
  rewrite Hname, Hdigits. reflexivity.
Defined.

(** ** Cell types of Dune geometry types *)

Section GeometryTypes.
Import Dune.



End GeometryTypes.

(** ** Corner order of Dune cells *)

Lemma mapM_pointwise {A B : Type} (f : A -> Result B) (P : A -> B -> Prop)
    (xs : list A) :
  (forall x, x ∈ xs -> exists y, f x = Ok y /\ P x y) ->
  exists ys, mapM f xs = Ok ys /\ Forall2 P xs ys.
Proof.
  induction xs as [|x xs IH]; intros Hf.
  - exists []. split; [reflexivity|constructor].
  - destruct (Hf x) as (y & Hy & HP); [apply list_elem_of_here|].
    destruct IH as (ys & Hys & HF).
    { intros x' Hx'. apply Hf. now apply list_elem_of_further. }
    exists (y :: ys). cbn. rewrite Hy. cbn. rewrite Hys. cbn.
    split; [reflexivity|now constructor].
Qed.

Section CornerOrder.
Import Dune.

Lemma map_corner_index_canonical (gt : GeometryType) (n i : nat) :
  (isQuadrilateral gt = true -> n = 4) ->
  (isHexahedron gt = true -> n = 8) ->
  i < n ->
  DuneDetail.map_corner_index gt (Z.of_nat i)
    = Ok (Z.of_nat (canonical_corner gt i))
  /\ canonical_corner gt i < n.
Proof.
  intros Hq Hh Hi. unfold DuneDetail.map_corner_index, canonical_corner.
  destruct (isQuadrilateral gt).
  - specialize (Hq eq_refl). subst n.
    do 4 (destruct i as [|i]; [split; [reflexivity|cbn; lia]|]). lia.
  - destruct (isHexahedron gt).
    + specialize (Hh eq_refl). subst n.
      do 8 (destruct i as [|i]; [split; [reflexivity|cbn; lia]|]). lia.
    + split; [reflexivity|assumption].
Qed.

(** C3.  [cell_points] of a Dune cell returns as many points as the cell
    has corners, and the i-th of them is the Dune corner number
    [(0,1,3,2)[i]] of a quadrilateral, [(0,1,3,2,4,5,7,6)[i]] of a
    hexahedron, and [i] of every other shape.  A quadrilateral has four
    corners and a hexahedron eight. *)
Theorem cell_points_canonical_order
    (grid_view : GridView) (element : Entity) :
  (isQuadrilateral (type element) = true -> subEntities element = 4) ->
  (isHexahedron (type element) = true -> subEntities element = 8) ->
  exists points,
    DuneTraits.CellPoints.get grid_view element = Ok points
    /\ length points = subEntities element
    /\ forall i, i < subEntities element ->
         points !! i = corners element !! canonical_corner (type element) i.
Proof.
  intros Hq Hh. unfold DuneTraits.CellPoints.get.
  destruct (mapM_pointwise
    (fun i : nat =>
       k <- DuneDetail.map_corner_index (type element) (Z.of_nat i) ;;
       subEntity element k)
    (fun i v => corners element !! canonical_corner (type element) i = Some v)
    (seq 0 (subEntities element))) as (points & Hpoints & HF).
  { intros i Hi. apply elem_of_seq in Hi.
    destruct (map_corner_index_canonical (type element)
                (subEntities element) i Hq Hh) as [Hmap Hlt]; [lia|].
    rewrite Hmap. cbn. unfold subEntity.
    destruct (Z.ltb_spec (Z.of_nat (canonical_corner (type element) i)) 0);
      [lia|].
    rewrite Nat2Z.id.
    destruct (lookup_lt_is_Some_2 (corners element)
                (canonical_corner (type element) i) Hlt) as [v Hv].
    exists v. now rewrite Hv. }
  exists points. split; [exact Hpoints|].
  pose proof (Forall2_length _ _ _ HF) as Hlen. rewrite length_seq in Hlen.
  split; [now symmetry|].
  intros i Hi.
  destruct (lookup_lt_is_Some_2 points i) as [v Hv]; [lia|].
  rewrite Hv. symmetry.
  eapply (Forall2_lookup_lr _ _ _ i i v HF); [|exact Hv].
  now apply lookup_seq_lt.
Qed.

Lemma cell_points_canonical_order_witness :
  exists points,
    DuneTraits.CellPoints.get Samples.quad_view Samples.quad_element
      = Ok points
    /\ length points = 4
    /\ forall i, i < 4 ->
         points !! i
         = corners Samples.quad_element !! canonical_corner cube2 i.
Proof.
  apply (cell_points_canonical_order Samples.quad_view Samples.quad_element);
    intros; [reflexivity | discriminate].
Defined.

Example quad_cell_points :
  DuneTraits.CellPoints.get Samples.quad_view Samples.quad_element
  = Ok [Samples.vertex_entity 2 InteriorEntity 0;
        Samples.vertex_entity 2 BorderEntity 1;
        Samples.vertex_entity 2 BorderEntity 3;
        Samples.vertex_entity 2 InteriorEntity 2].
Proof. reflexivity. Qed.

End CornerOrder.

(** ** Which entities the adapters enumerate *)

Section ActiveEntities.
Import Dune CGAL.

Lemma range_spec (gv : GridView) (codim : nat) (pit : PartitionIteratorType)
    (e : Entity) :
  e ∈ range gv codim pit <->
  e ∈ entities gv /\ codimension e = codim
  /\ visits pit (partitionType e) = true.
Proof.
  unfold range. rewrite list_elem_of_filter, andb_True.
  rewrite !Is_true_true, Nat.eqb_eq. tauto.
Qed.

(** C6.  The cells of a Dune grid view are exactly its interior
    elements and its points exactly its interior and border vertices, so
    no overlap, front or ghost entity is enumerated; the cells and points
    of a CGAL triangulation are exactly its finite faces or cells and its
    finite vertices. *)
Theorem points_and_cells_enumerate_active_entities :
  (forall gv c, c ∈ DuneTraits.Cells.get gv <->
     c ∈ entities gv /\ codimension c = 0
     /\ partitionType c = InteriorEntity)
  /\ (forall gv p, p ∈ DuneTraits.Points.get gv <->
     p ∈ entities gv /\ codimension p = dimension gv
     /\ (partitionType p = InteriorEntity
         \/ partitionType p = BorderEntity))
  /\ (forall t c, c ∈ CGALTraits.Cells.get t <->
     c ∈ tds_cells t /\ is_infinite_cell t c = false)
  /\ (forall t v, v ∈ CGALTraits.Points.get t <->
     v ∈ tds_vertices t /\ is_infinite t v = false).
Proof.
  split; [|split; [|split]].
  - intros gv c. unfold DuneTraits.Cells.get. rewrite range_spec.
    destruct (partitionType c); cbn; intuition congruence.
  - intros gv p. unfold DuneTraits.Points.get. rewrite range_spec.
    destruct (partitionType p); cbn; intuition congruence.
  - intros t c.
    unfold CGALTraits.Cells.get, finite_face_handles, finite_cell_handles.
    destruct (grid2d t);
      rewrite list_elem_of_filter, Is_true_true, negb_true_iff; tauto.
  - intros t v. unfold CGALTraits.Points.get, finite_vertex_handles.
    rewrite list_elem_of_filter, Is_true_true, negb_true_iff. tauto.
Qed.

Example quad_view_cells :
  DuneTraits.Cells.get Samples.quad_view = [Samples.quad_element].
Proof. reflexivity. Qed.

Example triangle_grid_points :
  CGALTraits.Points.get Samples.triangle_grid = [4848; 4896; 4944]%N.
Proof. reflexivity. Qed.

Lemma points_and_cells_enumerate_active_entities_witness :
  partitionType Samples.quad_element = InteriorEntity
  /\ is_infinite Samples.triangle_grid 4848%N = false.
Proof.
  destruct points_and_cells_enumerate_active_entities
    as (Hcells & _ & _ & Hpoints).
  split.
  - apply (Hcells Samples.quad_view Samples.quad_element).
    rewrite quad_view_cells. apply list_elem_of_here.
  - apply (Hpoints Samples.triangle_grid 4848%N).
    rewrite triangle_grid_points. apply list_elem_of_here.
Defined.

End ActiveEntities.

(** ** Entity counts against the enumerated sequences *)

Section EntityCounts.
Import Dune CGAL.

Lemma cgal_counts_match (grid : Triangulation) :
  CGALTraits.NumberOfPoints.get grid = length (CGALTraits.Points.get grid)
  /\ CGALTraits.NumberOfCells.get grid = length (CGALTraits.Cells.get grid).
Proof.
  unfold CGALTraits.NumberOfCells.get, CGALTraits.Cells.get.
  split; [reflexivity|]. now destruct (grid2d grid).
Qed.

Lemma dune_counts_match_multi_process (grid_view : GridView) :
  comm_size grid_view <> 1%Z ->
  DuneTraits.NumberOfPoints.get grid_view
    = length (DuneTraits.Points.get grid_view)
  /\ DuneTraits.NumberOfCells.get grid_view
    = length (DuneTraits.Cells.get grid_view).
Proof.
  intros Hsize. apply Z.eqb_neq in Hsize.
  unfold DuneTraits.NumberOfPoints.get, DuneTraits.NumberOfCells.get.
  now rewrite Hsize.
Qed.

Lemma size_range (gv : GridView) (codim : nat) (pit : PartitionIteratorType) :
  (forall e, e ∈ entities gv -> codimension e = codim ->
             visits pit (partitionType e) = true) ->
  size gv codim = length (range gv codim pit).
Proof.
  unfold size, range. intros Hall. f_equal.
  induction (entities gv) as [|e es IH]; [reflexivity|].
  rewrite !filter_cons.
  rewrite IH by (intros e' He'; apply Hall; now apply list_elem_of_further).
  destruct (Nat.eqb_spec (codimension e) codim) as [Hc|Hc]; cbn.
  - rewrite (Hall e) by (apply list_elem_of_here || exact Hc). reflexivity.
  - reflexivity.
Qed.

(** On one process the counts are those of all stored entities: they
    agree with the sequences when every stored element is interior and
    every stored vertex is interior or border. *)
Lemma dune_counts_match_single_process (grid_view : GridView) :
  comm_size grid_view = 1%Z ->
  (forall e, e ∈ entities grid_view ->
             partitionType e = InteriorEntity
             \/ (partitionType e = BorderEntity /\ codimension e <> 0)) ->
  DuneTraits.NumberOfPoints.get grid_view
    = length (DuneTraits.Points.get grid_view)
  /\ DuneTraits.NumberOfCells.get grid_view
    = length (DuneTraits.Cells.get grid_view).
Proof.
  intros Hsize Hall.
  unfold DuneTraits.NumberOfPoints.get, DuneTraits.NumberOfCells.get.
  rewrite Hsize. cbn. split; apply size_range; intros e He Hc.
  - destruct (Hall e He) as [-> | [-> _]]; reflexivity.
  - destruct (Hall e He) as [-> | [_ Hne]]; [reflexivity|contradiction].
Qed.

(** C2.  On the single-process periodic grid, [number_of_cells] and
    [number_of_points] count the overlap cells and front vertices as
    well, while [cells] and [points] skip them: the counts are 4 and 5,
    the sequences have 2 and 3 entries. *)
Theorem single_process_counts_include_overlap :
  comm_size Samples.periodic_view = 1%Z
  /\ DuneTraits.NumberOfCells.get Samples.periodic_view = 4
  /\ length (DuneTraits.Cells.get Samples.periodic_view) = 2
  /\ DuneTraits.NumberOfPoints.get Samples.periodic_view = 5
  /\ length (DuneTraits.Points.get Samples.periodic_view) = 3.
Proof. repeat split. Qed.

End EntityCounts.

(** ** Extents and ordinates of a YaspGrid *)

Section YaspGrid.
Import Dune.

Lemma to_int_small (z : Z) :
  (- 2 ^ 31 <= z <= INT_MAX)%Z -> to_int z = z.
Proof.
  unfold to_int, INT_MAX. intros Hz.
  rewrite Z.mod_small by lia. lia.
Qed.

Lemma length_fold_insert {A : Type} (f : nat -> A) (indices : list nat)
    (l : list A) :
  length (fold_left (fun acc i => <[i := f i]> acc) indices l) = length l.
Proof.
  revert l. induction indices as [|i indices IH]; intros l; cbn; [reflexivity|].
  now rewrite IH, length_insert.
Qed.

(** C9.  Along every axis of a YaspGrid view the ordinates are one more
    than the cells: when the interior index range [min..max] of the axis
    is not negative in length and fits an [int], [Ordinates] for that
    axis has [Extents[axis] + 1] entries. *)
Theorem yasp_ordinates_one_more_than_extents
    (grid_view : YaspGridView) (direction : nat)
    (grid_level : YGridLevel) (bounds : YGridComponent) :
  DuneTraits.interior_bounds grid_view = Ok (grid_level, bounds) ->
  direction < dimension grid_view ->
  (min bounds direction - 1 <= max bounds direction)%Z ->
  (max bounds direction - min bounds direction + 2 <= INT_MAX)%Z ->
  exists extents ordinates cells,
    DuneTraits.Extents.get grid_view = Ok extents
    /\ DuneTraits.Ordinates.get grid_view direction = Ok ordinates
    /\ extents !! direction = Some cells
    /\ Z.of_nat (length ordinates) = (cells + 1)%Z.
Proof.
  intros Hbounds Hdir Hlo Hhi.
  unfold DuneTraits.Extents.get, DuneTraits.Ordinates.get.
  rewrite Hbounds. cbn [bind fst snd].
  set (cells := (max bounds direction - min bounds direction + 1)%Z).
  assert (Hsub : int_sub (max bounds direction) (min bounds direction)
                 = (cells - 1)%Z).
  { unfold int_sub. rewrite to_int_small; unfold INT_MAX in *; lia. }
  assert (Hone : int_add (cells - 1) 1 = cells).
  { unfold int_add. rewrite to_int_small; unfold INT_MAX in *; lia. }
  assert (Htwo : int_add (cells - 1) 2 = (cells + 1)%Z).
  { unfold int_add. rewrite to_int_small; unfold INT_MAX in *; lia. }
  rewrite Hsub, Htwo. unfold DuneTraits.Ordinates.make_vector.
  destruct (Z.ltb_spec (cells + 1) 0) as [Hneg|_]; [lia|].
  cbn [bind]. eexists _, _, cells. split; [reflexivity|].
  split; [reflexivity|]. split.
  - rewrite list_lookup_fmap, lookup_seq_lt by exact Hdir. cbn.
    rewrite Hsub, Hone. unfold to_size_t, size_t_modulus.
    rewrite Z.mod_small; [reflexivity|]. unfold INT_MAX in *. lia.
  - rewrite length_fold_insert, length_replicate. lia.
Qed.

Example yasp_view_extents :
  DuneTraits.Extents.get Samples.yasp_view = Ok [3; 2]%Z.
Proof. reflexivity. Qed.

Example yasp_view_ordinates :
  DuneTraits.Ordinates.get Samples.yasp_view 0
  = Ok [0 # 2; 1 # 2; 2 # 2; 3 # 2]%Q.
Proof. reflexivity. Qed.

Lemma yasp_ordinates_one_more_than_extents_witness :
  exists extents ordinates cells,
    DuneTraits.Extents.get Samples.yasp_view = Ok extents
    /\ DuneTraits.Ordinates.get Samples.yasp_view 0 = Ok ordinates
    /\ extents !! 0 = Some cells
    /\ Z.of_nat (length ordinates) = (cells + 1)%Z.
Proof.
  eapply (yasp_ordinates_one_more_than_extents Samples.yasp_view 0).
  - reflexivity.
  - cbn. lia.
  - cbn. lia.
  - cbn. unfold INT_MAX. lia.
Defined.

End YaspGrid.

(** ** The parallel reference scenario *)

Section ParallelScenario.
Import ParallelTest.

Lemma main_grid (comm_size rank : Z) :
  (0 <= rank)%Z -> (comm_size mod 2 = 0)%Z ->
  main comm_size rank
  = Ok {| origin := (inject_Z (rank mod 2), inject_Z (rank / 2));
          size := (1, 1)%Q;
          cells := (10, 15)%N |}.
Proof.
  intros Hrank Heven. unfold main.
  assert (Hrem : Z.rem comm_size 2 = 0%Z).
  { apply Z.rem_divide; [lia|]. apply Z.mod_divide; [lia|exact Heven]. }
  rewrite Hrem. cbn [Z.eqb negb].
  rewrite Z.rem_mod_nonneg, Z.quot_div_nonneg by lia. reflexivity.
Qed.

(** Evaluate the offsets of a concrete rank, then leave the comparison
    of rationals to [lra]. *)
Ltac piece_arith :=
  unfold covers in *; cbn [main origin size fst snd] in *;
  repeat match goal with
         | H : context [inject_Z ?z] |- _ =>
             let v := eval vm_compute in (inject_Z z) in
             change (inject_Z z) with v in H
         | |- context [inject_Z ?z] =>
             let v := eval vm_compute in (inject_Z z) in
             change (inject_Z z) with v
         end;
  lra.

Lemma four_ranks (r : Z) :
  (0 <= r < 4)%Z -> r = 0%Z \/ r = 1%Z \/ r = 2%Z \/ r = 3%Z.
Proof. lia. Qed.

(** C7.  The piece of rank [r] is the image grid with origin
    [(r mod 2, r div 2)], size 1 x 1 and 10 x 15 cells.  With four
    processes the pieces lie in the domain of side 2 at the origin, every
    point of the domain belongs to exactly one piece (no gap, no overlap;
    an upper face counts for the neighbour), and the summary lists four
    pieces. *)
Theorem parallel_pieces_tile_domain :
  (forall comm_size rank,
     (0 <= rank < comm_size)%Z -> (comm_size mod 2 = 0)%Z ->
     main comm_size rank
     = Ok {| origin := (inject_Z (rank mod 2), inject_Z (rank / 2));
             size := (1, 1)%Q;
             cells := (10, 15)%N |})
  /\ (forall rank grid x y,
        (0 <= rank < 4)%Z -> main 4 rank = Ok grid -> covers grid x y ->
        (0 <= x /\ x < 2)%Q /\ (0 <= y /\ y < 2)%Q)
  /\ (forall x y,
        (0 <= x /\ x < 2)%Q -> (0 <= y /\ y < 2)%Q ->
        exists rank grid,
          (0 <= rank < 4)%Z /\ main 4 rank = Ok grid /\ covers grid x y
          /\ forall rank' grid',
               (0 <= rank' < 4)%Z -> main 4 rank' = Ok grid' ->
               covers grid' x y -> rank' = rank)
  /\ (forall name, length (summary_pieces name 4) = 4).
Proof.
  split; [|split; [|split]].
  - intros comm_size rank Hrank Heven. apply main_grid; lia.
  - intros rank grid x y Hrank Hmain Hcov.
    destruct (four_ranks rank Hrank) as [-> | [-> | [-> | ->]]];
      injection Hmain as <-; piece_arith.
  - intros x y Hx Hy.
    destruct (Qlt_le_dec x 1) as [Hx1|Hx1], (Qlt_le_dec y 1) as [Hy1|Hy1].
    + exists 0%Z. eexists. split; [lia|]. split; [reflexivity|].
      split; [piece_arith|].
      intros rank' grid' Hrank' Hmain' Hcov'.
      destruct (four_ranks rank' Hrank') as [-> | [-> | [-> | ->]]];
        [reflexivity| | |];
        injection Hmain' as <-; piece_arith.
    + exists 2%Z. eexists. split; [lia|]. split; [reflexivity|].
      split; [piece_arith|].
      intros rank' grid' Hrank' Hmain' Hcov'.
      destruct (four_ranks rank' Hrank') as [-> | [-> | [-> | ->]]];
        [|  |reflexivity|];
        injection Hmain' as <-; piece_arith.
    + exists 1%Z. eexists. split; [lia|]. split; [reflexivity|].
      split; [piece_arith|].
      intros rank' grid' Hrank' Hmain' Hcov'.
      destruct (four_ranks rank' Hrank') as [-> | [-> | [-> | ->]]];
        [|reflexivity| |];
        injection Hmain' as <-; piece_arith.
    + exists 3%Z. eexists. split; [lia|]. split; [reflexivity|].
      split; [piece_arith|].
      intros rank' grid' Hrank' Hmain' Hcov'.
      destruct (four_ranks rank' Hrank') as [-> | [-> | [-> | ->]]];
        [| | |reflexivity];
        injection Hmain' as <-; piece_arith.
  - intros name. reflexivity.
Qed.

Lemma parallel_pieces_tile_domain_witness :
  main 4 3
  = Ok {| origin := (inject_Z (3 mod 2), inject_Z (3 / 2));
          size := (1, 1)%Q;
          cells := (10, 15)%N |}
  /\ exists rank grid,
       (0 <= rank < 4)%Z /\ main 4 rank = Ok grid
       /\ covers grid (3 # 2) (1 # 2).
Proof.
  destruct parallel_pieces_tile_domain as (Hmain & _ & Htile & _).
  split.
  - apply (Hmain 4%Z 3%Z); [lia|reflexivity].
  - destruct (Htile (3 # 2) (1 # 2))%Q as (rank & grid & Hr & Hg & Hc & _);
      [split; reflexivity || discriminate
      |split; reflexivity || discriminate|].
    now exists rank, grid.
Defined.

End ParallelScenario.

(** ** Connectivity of the Lagrange mesh *)

Lemma foldM_preserves {A S : Type} (body : S -> A -> Result S)
    (I : S -> Prop) (xs : list A) :
  (forall s x s', x ∈ xs -> I s -> body s x = Ok s' -> I s') ->
  forall s s', I s -> foldM body xs s = Ok s' -> I s'.
Proof.
  induction xs as [|x xs IH]; intros Hstep s s' Hs Hfold; cbn in Hfold.
  - now injection Hfold as <-.
  - destruct (body s x) as [s1|e] eqn:Hbody; [|discriminate]. cbn in Hfold.
    apply (IH (fun s0 y s0' Hy => Hstep s0 y s0' (list_elem_of_further _ _ _ Hy))
              s1 s').
    + apply (Hstep s x s1); [apply list_elem_of_here| |]; assumption.
    + exact Hfold.
Qed.

Lemma foldM_establishes {A S : Type} (body : S -> A -> Result S)
    (I : S -> Prop) (xs : list A) :
  (forall s x, x ∈ xs -> I s -> exists s', body s x = Ok s' /\ I s') ->
  forall s, I s -> exists s', foldM body xs s = Ok s' /\ I s'.
Proof.
  induction xs as [|x xs IH]; intros Hstep s Hs; cbn.
  - now exists s.
  - destruct (Hstep s x) as (s1 & Hbody & Hs1); [apply list_elem_of_here|exact Hs|].
    rewrite Hbody. cbn. apply IH; [|exact Hs1].
    intros s0 y Hy. apply Hstep. now apply list_elem_of_further.
Qed.

Lemma foldM_prefix {A S : Type} (body : S -> A -> Result S)
    (I : list A -> S -> Prop) (xs : list A) :
  (forall done x s, (exists rest, xs = done ++ x :: rest) -> I done s ->
     exists s', body s x = Ok s' /\ I (done ++ [x]) s') ->
  forall s, I [] s -> exists s', foldM body xs s = Ok s' /\ I xs s'.
Proof.
  revert I. induction xs as [|x xs IH]; intros I Hstep s Hs; cbn.
  - now exists s.
  - destruct (Hstep [] x s) as (s1 & Hbody & Hs1); [now exists xs|exact Hs|].
    rewrite Hbody. cbn.
    apply (IH (fun done => I (x :: done))); [|exact Hs1].
    intros done y s0 [rest ->] Hs0.
    apply (Hstep (x :: done) y s0); [now exists rest|exact Hs0].
Qed.

Section PointIndices.
Import DuneLagrange.PointIndicesHelper.

Lemma contains_lookup (m : t) (key : Key) :
  contains m key = true <-> is_Some (lookup m key).
Proof.
  unfold contains, lookup.
  destruct (m !! codim key) as [by_entity|]; cbn;
    [|split; [discriminate|intros [? ?]; discriminate]].
  destruct (by_entity !! global_index key) as [by_sub|]; cbn;
    [|split; [discriminate|intros [? ?]; discriminate]].
  apply bool_decide_eq_true.
Qed.

Lemma lookup_insert_key (m : t) (key key' : Key) (v : nat) :
  lookup (insert m key v) key'
  = if decide (key = key') then Some v else lookup m key'.
Proof.
  unfold lookup, insert. destruct key as [c g s], key' as [c' g' s']; cbn.
  destruct (decide (c = c')) as [<-|Hc].
  - rewrite lookup_insert_eq. cbn.
    destruct (decide (g = g')) as [<-|Hg].
    + rewrite lookup_insert_eq. cbn.
      destruct (decide (s = s')) as [<-|Hs].
      * rewrite lookup_insert_eq. now rewrite decide_True.
      * rewrite lookup_insert_ne by exact Hs.
        rewrite decide_False by congruence.
        destruct (m !! c) as [by_entity|]; cbn; [|reflexivity].
        destruct (by_entity !! g); reflexivity.
    + rewrite lookup_insert_ne by exact Hg.
      rewrite decide_False by congruence.
      destruct (m !! c); reflexivity.
  - rewrite lookup_insert_ne by exact Hc.
    rewrite decide_False by congruence. reflexivity.
Qed.

Lemma get_lookup (m : t) (c g : nat) (by_sub : gmap nat nat) :
  get m c g = Ok by_sub ->
  forall s, by_sub !! s = lookup m (Build_Key c g s).
Proof.
  unfold get, lookup. cbn. intros Hget s.
  destruct (m !! c) as [by_entity|]; [|discriminate]. cbn.
  destruct (by_entity !! g) as [by_sub'|]; [|discriminate]. cbn.
  now injection Hget as ->.
Qed.

Lemma contains_get (m : t) (c g s : nat) :
  contains m (Build_Key c g s) = true -> exists by_sub, get m c g = Ok by_sub.
Proof.
  unfold contains, get. cbn.
  destruct (m !! c) as [by_entity|]; [|discriminate].
  destruct (by_entity !! g) as [by_sub|]; [|discriminate]. eauto.
Qed.

End PointIndices.

Section LagrangeMesh.
Import DuneLagrange.
Context {GridView Element Local Position : Type}.
Variable ops : GridViewOps GridView Element Local Position.

Lemma make_point_indices_below (grid_view : GridView) (element : Element)
    (state state' : PointIndicesHelper.t * list Position)
    (local_point : LocalPoint Local) :
  PointIndicesHelper.indices_below (fst state) (length (snd state)) ->
  make_point ops grid_view element state local_point = Ok state' ->
  PointIndicesHelper.indices_below (fst state') (length (snd state')).
Proof.
  destruct state as [point_indices points]. cbn [fst snd].
  intros Hbelow. unfold make_point.
  destruct (mapper_at ops grid_view _) as [mapper|]; [|discriminate].
  cbn [bind].
  destruct (PointIndicesHelper.contains _ _).
  - now intros [= <-].
  - intros [= <-]. cbn [fst snd]. intros key v.
    rewrite lookup_insert_key, length_app. cbn [length].
    destruct (decide _) as [_|_].
    + intros [= <-]. lia.
    + intros Hv. specialize (Hbelow key v Hv). lia.
Qed.

Lemma _make_points_indices_below (grid_view : GridView)
    (local_points : list (Dune.GeometryType * list (LocalPoint Local)))
    (state state' : PointIndicesHelper.t * list Position) :
  PointIndicesHelper.indices_below (fst state) (length (snd state)) ->
  _make_points ops grid_view local_points state = Ok state' ->
  PointIndicesHelper.indices_below (fst state') (length (snd state')).
Proof.
  unfold _make_points. intros Hbelow Hmade.
  refine (foldM_preserves _
            (fun st => PointIndicesHelper.indices_below (fst st) (length (snd st)))
            _ _ state state' Hbelow Hmade).
  intros st element st' _ Hst.
  destruct (local_points_at _ _) as [element_points|]; [|discriminate].
  cbn [bind]. intros Hinner.
  refine (foldM_preserves _
            (fun st => PointIndicesHelper.indices_below (fst st) (length (snd st)))
            _ _ st st' Hst Hinner).
  intros s lp s' _. apply make_point_indices_below.
Qed.

Lemma resize_below (bound n : nat) (v : list nat) :
  0 < bound -> Forall (fun j => j < bound) v ->
  Forall (fun j => j < bound) (resize n v).
Proof.
  intros Hpos Hv. unfold resize. apply Forall_app. split.
  - now apply Forall_take.
  - apply Forall_replicate. exact Hpos.
Qed.

Lemma store_below (bound : nat) (v v' : list nat) (i x : nat) :
  x < bound -> Forall (fun j => j < bound) v ->
  store v i x = Ok v' -> Forall (fun j => j < bound) v'.
Proof.
  intros Hx Hv. unfold store. destruct (i <? length v)%nat; [|discriminate].
  intros [= <-]. now apply Forall_insert.
Qed.

Lemma fill_sub_entity_below (grid_view : GridView)
    (point_indices : PointIndicesHelper.t) (bound : nat)
    (element : Element) (codim : nat)
    (codim_points codim_points' : list (list nat)) (sub_entity : nat) :
  PointIndicesHelper.indices_below point_indices bound ->
  Forall (Forall (fun j => j < bound)) codim_points ->
  fill_sub_entity ops grid_view point_indices element codim
    codim_points sub_entity = Ok codim_points' ->
  Forall (Forall (fun j => j < bound)) codim_points'.
Proof.
  intros Hbelow Hpoints. unfold fill_sub_entity.
  destruct (DuneLagrangeDetail.dune_to_gfmt_sub_entity _ _ _)
    as [mapped|]; [|discriminate]. cbn [bind].
  destruct (mapper_at ops grid_view codim) as [mapper|]; [|discriminate].
  cbn [bind].
  destruct (PointIndicesHelper.contains _ _) eqn:Hcontains;
    [|now intros [= <-]].
  apply contains_lookup in Hcontains as [v0 Hv0].
  assert (Hpos : 0 < bound) by (specialize (Hbelow _ _ Hv0); lia).
  destruct (PointIndicesHelper.get _ _ _) as [indices|] eqn:Hget;
    [|discriminate]. cbn [bind].
  unfold fetch. destruct (mapped <? 0)%Z; [discriminate|].
  destruct (codim_points !! Z.to_nat mapped) as [sub_points|] eqn:Hsub;
    [|discriminate]. cbn [bind].
  destruct (foldM _ _ _) as [sub_points'|] eqn:Hfold; [|discriminate].
  cbn [bind]. intros [= <-]. apply Forall_insert; [exact Hpoints|].
  refine (foldM_preserves _ (Forall (fun j => j < bound)) _ _ _ _ _ Hfold).
  - intros s [local global] s' Hentry Hs. cbn [fst snd].
    apply store_below; [|exact Hs].
    apply elem_of_map_to_list in Hentry.
    rewrite (get_lookup _ _ _ _ Hget) in Hentry. exact (Hbelow _ _ Hentry).
  - apply resize_below; [exact Hpos|].
    exact (Forall_lookup_1 _ _ _ _ Hpoints Hsub).
Qed.

Lemma connect_codim_below (grid_view : GridView)
    (point_indices : PointIndicesHelper.t) (bound : nat)
    (element : Element) (cell_points cell_points' : list nat) (codim : nat) :
  PointIndicesHelper.indices_below point_indices bound ->
  Forall (fun j => j < bound) cell_points ->
  connect_codim ops grid_view point_indices element cell_points codim
    = Ok cell_points' ->
  Forall (fun j => j < bound) cell_points'.
Proof.
  intros Hbelow Hcell. unfold connect_codim.
  destruct (foldM _ _ _) as [codim_points|] eqn:Hfold; [|discriminate].
  cbn [bind]. intros [= <-]. apply Forall_app. split; [exact Hcell|].
  apply Forall_concat.
  refine (foldM_preserves _ (Forall (Forall (fun j => j < bound)))
            _ _ _ _ _ Hfold).
  - intros s sub_entity s' _ Hs. now apply fill_sub_entity_below.
  - apply Forall_replicate. constructor.
Qed.

Lemma _set_connectivity_below (grid_view : GridView)
    (point_indices : PointIndicesHelper.t) (bound : nat)
    (state state' : list (list nat) * list N) :
  PointIndicesHelper.indices_below point_indices bound ->
  Forall (Forall (fun j => j < bound)) (fst state) ->
  _set_connectivity ops grid_view point_indices state = Ok state' ->
  Forall (Forall (fun j => j < bound)) (fst state').
Proof.
  intros Hbelow Hstate Hset. unfold _set_connectivity in Hset.
  refine (foldM_preserves _
            (fun st => Forall (Forall (fun j => j < bound)) (fst st))
            _ _ state state' Hstate Hset).
  intros [cells ids] element st' _ Hcells. cbn [fst] in Hcells.
  destruct (foldM (connect_codim _ _ _ _) _ _) as [cell_points|] eqn:Hfold;
    [|discriminate].
  cbn [bind]. intros [= <-]. cbn [fst].
  apply Forall_app. split; [exact Hcells|]. constructor; [|constructor].
  refine (foldM_preserves _ (Forall (fun j => j < bound)) _ _ _ _ _ Hfold).
  - intros s codim s' _ Hs. now apply connect_codim_below.
  - constructor.
Qed.

Lemma below_in_range (mesh : @Mesh GridView Local Position) :
  Forall (Forall (fun j => j < number_of_points mesh)) (_cells mesh) ->
  connectivity_in_range mesh.
Proof.
  intros Hcells i Hi. unfold cell_points, point, at_.
  destruct (lookup_lt_is_Some_2 (_cells mesh) i Hi) as [cell Hcell].
  rewrite Hcell. exists cell. split; [reflexivity|]. intros j Hj.
  pose proof (Forall_lookup_1 _ _ _ _ Hcells Hcell) as Hall.
  rewrite Forall_forall in Hall. specialize (Hall j Hj).
  split; [exact Hall|].
  destruct (lookup_lt_is_Some_2 (_points mesh) j Hall) as [p Hp].
  rewrite Hp. now exists p.
Qed.

Lemma update_in_range (mesh0 mesh : Mesh) (grid_view : GridView) :
  update ops mesh0 grid_view = Ok mesh -> connectivity_in_range mesh.
Proof.
  unfold update, _update_mesh. cbn [_grid_view _points _cells _cell_topology_id
    _local_points _order clear].
  destruct (_make_points _ _ _ _) as [made|] eqn:Hmade; [|discriminate].
  cbn [bind].
  destruct (_set_connectivity _ _ _ _) as [connected|] eqn:Hset; [|discriminate].
  cbn [bind]. intros [= <-]. apply below_in_range. cbn.
  apply _make_points_indices_below in Hmade;
    [|intros key v; cbn [fst]; unfold PointIndicesHelper.lookup;
      rewrite lookup_empty; discriminate].
  apply (_set_connectivity_below _ _ _ _ _ Hmade) in Hset; [exact Hset|].
  constructor.
Qed.

Lemma construct_in_range (grid_view : GridView) (order : nat) (mesh : Mesh) :
  construct ops grid_view order = Ok mesh -> connectivity_in_range mesh.
Proof.
  unfold construct. destruct (update _ _ _) as [mesh'|] eqn:Hupdate;
    [|discriminate]. cbn [bind].
  destruct (order <? 1)%nat; [discriminate|]. intros [= <-].
  exact (update_in_range _ _ _ Hupdate).
Qed.

(** *** The rebuild does not fail on a well-formed grid view *)

Lemma has_mapper_le (codim : nat) :
  dimension ops <= 3 -> codim <= dimension ops -> has_mapper ops codim = true.
Proof.
  intros Hdim Hcodim. unfold has_mapper.
  destruct codim as [|[|[|[|codim]]]]; try reflexivity.
  - apply Nat.leb_le. lia.
  - apply Nat.eqb_eq. lia.
  - lia.
Qed.

Lemma make_point_keys (grid_view : GridView) (element : Element)
    (state : PointIndicesHelper.t * list Position)
    (lp : LocalPoint Local) :
  dimension ops <= 3 ->
  LagrangePoint.codim (localKey lp) <= dimension ops ->
  exists state',
    make_point ops grid_view element state lp = Ok state'
    /\ forall key,
         is_Some (PointIndicesHelper.lookup (fst state') key) <->
         is_Some (PointIndicesHelper.lookup (fst state) key)
         \/ key = key_of ops grid_view element lp.
Proof.
  intros Hdim Hcodim. destruct state as [point_indices points].
  unfold make_point, mapper_at. rewrite has_mapper_le by assumption.
  cbn [bind]. fold (key_of ops grid_view element lp).
  destruct (PointIndicesHelper.contains _ _) eqn:Hcontains.
  - eexists. split; [reflexivity|]. cbn [fst]. intros key.
    apply contains_lookup in Hcontains.
    split; [auto|]. now intros [H| ->].
  - eexists. split; [reflexivity|]. cbn [fst]. intros key.
    rewrite lookup_insert_key. destruct (decide _) as [<-|Hne].
    + split; [auto|]. intros _. eauto.
    + split; [auto|]. intros [H|Heq]; [exact H|]. now subst key.
Qed.

Lemma _make_points_keys (grid_view : GridView) (order : nat) :
  well_formed ops grid_view order ->
  exists made,
    _make_points ops grid_view (_update_local_points ops grid_view order)
      (∅, []) = Ok made
    /\ forall key,
         is_Some (PointIndicesHelper.lookup (fst made) key) <->
         filed ops grid_view (_update_local_points ops grid_view order)
           (grid_cells ops grid_view) key.
Proof.
  intros [Hdim Hwf]. unfold _make_points.
  set (local_points := _update_local_points ops grid_view order) in *.
  apply (foldM_prefix _
    (fun done st => forall key,
       is_Some (PointIndicesHelper.lookup (fst st) key) <->
       filed ops grid_view local_points done key)).
  - intros done element st [rest Hsplit] Hdone.
    destruct (Hwf element) as [(element_points & Hat & _ & Hcodim) _].
    { rewrite Hsplit. apply elem_of_app. right. apply list_elem_of_here. }
    rewrite Hat. cbn [bind].
    destruct (foldM_prefix (make_point ops grid_view element)
      (fun done_points st' => forall key,
         is_Some (PointIndicesHelper.lookup (fst st') key) <->
         filed ops grid_view local_points done key
         \/ exists lp, lp ∈ done_points
                       /\ key = key_of ops grid_view element lp)
      element_points) with (s := st) as (st' & Hfold & Hkeys).
    + intros done_points lp s [rest' Hsplit'] Hs.
      destruct (make_point_keys grid_view element s lp Hdim)
        as (s' & Hmake & Hs').
      { apply Hcodim. rewrite Hsplit'. apply elem_of_app. right.
        apply list_elem_of_here. }
      exists s'. split; [exact Hmake|]. intros key.
      rewrite Hs', Hs. split.
      * intros [[H|(lp' & Hin & Heq)]| ->]; [now left| |].
        -- right. exists lp'. split; [|exact Heq].
           apply elem_of_app. now left.
        -- right. exists lp. split; [|reflexivity].
           apply elem_of_app. right. apply list_elem_of_here.
      * intros [H|(lp' & [Hin|Hin%list_elem_of_singleton]%elem_of_app & Heq)].
        -- left. now left.
        -- left. right. now exists lp'.
        -- right. now subst.
    + intros key. rewrite Hdone. split; [now left|].
      intros [H|(lp & Hin & _)]; [exact H|]. now apply elem_of_nil in Hin.
    + exists st'. split; [exact Hfold|]. intros key. rewrite Hkeys. split.
      * intros [(e & eps & lp & Hin & He & Hlp & Heq)|(lp & Hlp & Heq)].
        -- exists e, eps, lp. split; [|auto].
           apply elem_of_app. now left.
        -- exists element, element_points, lp. split; [|auto].
           apply elem_of_app. right. apply list_elem_of_here.
      * intros (e & eps & lp &
                [Hin|Hin%list_elem_of_singleton]%elem_of_app
                & He & Hlp & Heq).
        -- left. now exists e, eps, lp.
        -- right. subst e. rewrite Hat in He. injection He as <-.
           now exists lp.
  - intros key. cbn [fst]. unfold PointIndicesHelper.lookup.
    rewrite lookup_empty. cbn. split.
    + intros [? ?]; discriminate.
    + intros (e & _ & _ & Hin & _). now apply elem_of_nil in Hin.
Qed.

Lemma gapless_keys_below_size (m : gmap nat nat) :
  (forall s k, is_Some (m !! s) -> k < s -> is_Some (m !! k)) ->
  forall s, is_Some (m !! s) -> s < size m.
Proof.
  intros Hgapless s Hs.
  assert (Hsub : (set_seq 0 (S s) : gset nat) ⊆ dom m).
  { intros k [_ Hk]%elem_of_set_seq. apply elem_of_dom.
    destruct (decide (k = s)) as [->|Hne]; [exact Hs|].
    apply (Hgapless s k Hs). lia. }
  apply subseteq_size in Hsub.
  rewrite size_set_seq, size_dom in Hsub. lia.
Qed.

Lemma filed_gapless (grid_view : GridView) (order : nat)
    (c g s k : nat) :
  well_formed ops grid_view order ->
  filed ops grid_view (_update_local_points ops grid_view order)
    (grid_cells ops grid_view) (PointIndicesHelper.Build_Key c g s) ->
  k < s ->
  filed ops grid_view (_update_local_points ops grid_view order)
    (grid_cells ops grid_view) (PointIndicesHelper.Build_Key c g k).
Proof.
  intros [_ Hwf] (element & element_points & lp & Hin & Hat & Hlp & Hkey) Hk.
  destruct (Hwf element Hin) as [(element_points' & Hat' & Hcons & _) _].
  rewrite Hat in Hat'. injection Hat' as <-.
  unfold key_of in Hkey. injection Hkey as -> -> ->.
  destruct (Hcons lp Hlp k Hk) as (lp' & Hlp' & Hc & Hs & Hi).
  exists element, element_points, lp'. repeat split; try assumption.
  unfold key_of. now rewrite Hc, Hs, Hi.
Qed.

Lemma store_all (indices : gmap nat nat) (sub_points : list nat) :
  (forall s, is_Some (indices !! s) -> s < size indices) ->
  exists sub_points',
    foldM (fun sub_points entry => store sub_points (fst entry) (snd entry))
          (map_to_list indices) (resize (size indices) sub_points)
    = Ok sub_points'.
Proof.
  intros Hsize.
  destruct (foldM_establishes
    (fun sub_points entry => store sub_points (fst entry) (snd entry))
    (fun v : list nat => length v = size indices)
    (map_to_list indices)) with (s := resize (size indices) sub_points)
    as (sub_points' & Hfold & _).
  - intros v [local global] Hentry Hlen. cbn [fst snd]. unfold store.
    apply elem_of_map_to_list in Hentry.
    assert (Hlocal : local < size indices) by (apply Hsize; eauto).
    rewrite <- Hlen in Hlocal. apply Nat.ltb_lt in Hlocal. rewrite Hlocal.
    eexists. split; [reflexivity|]. now rewrite length_insert.
  - unfold resize. rewrite length_app, length_take, length_replicate. lia.
  - now exists sub_points'.
Qed.

Lemma fill_sub_entity_total (grid_view : GridView) (order : nat)
    (made : PointIndicesHelper.t * list Position)
    (element : Element) (codim : nat)
    (codim_points : list (list nat)) (sub_entity : nat) :
  well_formed ops grid_view order ->
  (forall key,
     is_Some (PointIndicesHelper.lookup (fst made) key) <->
     filed ops grid_view (_update_local_points ops grid_view order)
       (grid_cells ops grid_view) key) ->
  element ∈ grid_cells ops grid_view ->
  codim <= dimension ops ->
  sub_entity < subEntities ops element codim ->
  length codim_points = subEntities ops element codim ->
  exists codim_points',
    fill_sub_entity ops grid_view (fst made) element codim
      codim_points sub_entity = Ok codim_points'
    /\ length codim_points' = subEntities ops element codim.
Proof.
  intros Hwf Hkeys Hin Hcodim Hsub Hlen. unfold fill_sub_entity.
  pose proof Hwf as [Hdim Helements].
  destruct (Helements element Hin) as [_ Htable].
  destruct (Htable codim sub_entity Hcodim Hsub) as (mapped & Hmapped & Hrange).
  rewrite Hmapped. cbn [bind]. unfold mapper_at.
  rewrite has_mapper_le by assumption. cbn [bind].
  destruct (PointIndicesHelper.contains _ _) eqn:Hcontains;
    [|now exists codim_points].
  destruct (contains_get _ _ _ _ Hcontains) as [indices Hget].
  rewrite Hget. cbn [bind]. unfold fetch.
  destruct (Z.ltb_spec mapped 0) as [Hneg|_]; [lia|].
  destruct (lookup_lt_is_Some_2 codim_points (Z.to_nat mapped))
    as [sub_points Hsub_points]; [lia|].
  rewrite Hsub_points. cbn [bind].
  destruct (store_all indices sub_points) as [sub_points' Hstore].
  { apply gapless_keys_below_size. intros s k Hs Hk.
    rewrite (get_lookup _ _ _ _ Hget) in *.
    apply Hkeys. apply Hkeys in Hs.
    exact (filed_gapless _ _ _ _ _ _ Hwf Hs Hk). }
  rewrite Hstore. cbn [bind]. eexists. split; [reflexivity|].
  now rewrite length_insert.
Qed.

Lemma _set_connectivity_total (grid_view : GridView) (order : nat)
    (made : PointIndicesHelper.t * list Position)
    (state : list (list nat) * list N) :
  well_formed ops grid_view order ->
  (forall key,
     is_Some (PointIndicesHelper.lookup (fst made) key) <->
     filed ops grid_view (_update_local_points ops grid_view order)
       (grid_cells ops grid_view) key) ->
  exists connected,
    _set_connectivity ops grid_view (fst made) state = Ok connected.
Proof.
  intros Hwf Hkeys. unfold _set_connectivity.
  destruct (foldM_establishes
    (fun state element =>
       let '(cells, cell_topology_id) := state in
       let cell_topology_id :=
         cell_topology_id ++ [Dune.id (type ops element)] in
       cell_points <-
         foldM (connect_codim ops grid_view (fst made) element)
               (rev (seq 0 (S (dimension ops)))) [] ;;
       Ok (cells ++ [cell_points], cell_topology_id))
    (fun _ => True) (grid_cells ops grid_view)) with (s := state)
    as (connected & Hfold & _); [|exact I|now exists connected].
  intros [cells ids] element Hin _.
  destruct (foldM_establishes
    (connect_codim ops grid_view (fst made) element) (fun _ => True)
    (rev (seq 0 (S (dimension ops))))) with (s := @nil nat)
    as (cell_points & Hcell & _); [|exact I|].
  - intros cell_points codim Hcodim _.
    apply list_elem_of_In, in_rev, list_elem_of_In, elem_of_seq in Hcodim.
    unfold connect_codim.
    destruct (foldM_establishes
      (fill_sub_entity ops grid_view (fst made) element codim)
      (fun v => length v = subEntities ops element codim)
      (seq 0 (subEntities ops element codim)))
      with (s := replicate (subEntities ops element codim) (@nil nat))
      as (codim_points & Hfill & _).
    + intros v sub_entity Hsub%elem_of_seq Hlen.
      apply (fill_sub_entity_total grid_view order); auto; lia.
    + apply length_replicate.
    + rewrite Hfill. cbn [bind]. eauto.
  - rewrite Hcell. cbn [bind]. eauto.
Qed.

Lemma update_total (mesh0 : Mesh) (grid_view : GridView) :
  well_formed ops grid_view (_order mesh0) ->
  exists mesh, update ops mesh0 grid_view = Ok mesh.
Proof.
  intros Hwf. unfold update, _update_mesh.
  cbn [_grid_view _points _cells _cell_topology_id _local_points _order clear].
  destruct (_make_points_keys grid_view (_order mesh0) Hwf)
    as (made & Hmade & Hkeys).
  rewrite Hmade. cbn [bind].
  destruct (_set_connectivity_total grid_view (_order mesh0) made ([], [])
              Hwf Hkeys) as [connected Hconnected].
  rewrite Hconnected. cbn [bind]. eauto.
Qed.

Lemma construct_total (grid_view : GridView) (order : nat) :
  1 <= order -> well_formed ops grid_view order ->
  exists mesh, construct ops grid_view order = Ok mesh.
Proof.
  intros Horder Hwf. unfold construct.
  destruct (update_total
              {| _grid_view := grid_view; _order := order; _points := [];
                 _cells := []; _cell_topology_id := [];
                 _local_points := [] |} grid_view Hwf) as [mesh Hmesh].
  rewrite Hmesh. cbn [bind].
  destruct (Nat.ltb_spec order 1) as [Hlt|_]; [lia|]. eauto.
Qed.

(** C10.  A mesh that [update] or the constructor returns has every
    connectivity entry in range: each index stored in [cell_points(i)] is
    below [number_of_points()] and [point] is defined on it.  On a
    well-formed grid view [update] returns a mesh, and so does the
    constructor for an order of at least one. *)
Theorem lagrange_connectivity_in_range :
  (forall mesh0 grid_view mesh,
     update ops mesh0 grid_view = Ok mesh -> connectivity_in_range mesh)
  /\ (forall grid_view order mesh,
        construct ops grid_view order = Ok mesh -> connectivity_in_range mesh)
  /\ (forall mesh0 grid_view,
        well_formed ops grid_view (_order mesh0) ->
        exists mesh, update ops mesh0 grid_view = Ok mesh)
  /\ (forall grid_view order,
        1 <= order -> well_formed ops grid_view order ->
        exists mesh, construct ops grid_view order = Ok mesh).
Proof.
  split; [|split; [|split]].
  - intros mesh0 grid_view mesh. apply update_in_range.
  - intros grid_view order mesh. apply construct_in_range.
  - intros mesh0 grid_view. apply update_total.
  - intros grid_view order. apply construct_total.
Qed.

End LagrangeMesh.

Section LagrangeSample.
Import DuneLagrange.

Lemma two_quads_well_formed : well_formed Samples.two_quads tt 2.
Proof.
  split; [cbn; lia|]. intros element Hin. split.
  - exists (Samples.quad_local_points 2 Dune.cube2).
    split; [vm_compute; reflexivity|]. split.
    + intros lp Hlp k Hk. exfalso. vm_compute in Hlp.
      repeat (apply elem_of_cons in Hlp as [-> | Hlp]; [cbn in Hk; lia|]).
      now apply elem_of_nil in Hlp.
    + intros lp Hlp. vm_compute in Hlp.
      repeat (apply elem_of_cons in Hlp as [-> | Hlp]; [cbn; lia|]).
      now apply elem_of_nil in Hlp.
  - intros codim sub_entity Hcodim Hsub. cbn in Hcodim.
    destruct codim as [|[|[|codim]]]; [| | |lia]; cbn in Hsub.
    + destruct sub_entity as [|sub_entity]; [|lia].
      exists 0%Z. split; [reflexivity|cbn; lia].
    + do 4 (destruct sub_entity as [|sub_entity];
            [eexists; split; [reflexivity|cbn; lia]|]). lia.
    + do 4 (destruct sub_entity as [|sub_entity];
            [eexists; split; [reflexivity|cbn; lia]|]). lia.
Qed.

Lemma lagrange_connectivity_in_range_witness :
  exists mesh,
    construct Samples.two_quads tt 2 = Ok mesh /\ connectivity_in_range mesh.
Proof.
  destruct (lagrange_connectivity_in_range Samples.two_quads)
    as (_ & Hrange & _ & Htotal).
  destruct (Htotal tt 2) as [mesh Hmesh];
    [lia | apply two_quads_well_formed |].
  exists mesh. split; [exact Hmesh | exact (Hrange tt 2 mesh Hmesh)].
Defined.

Example two_quads_mesh :
  (mesh <- construct Samples.two_quads tt 2 ;;
   Ok (number_of_points mesh, _cells mesh))
  = Ok (15, [[0; 1; 3; 2; 6; 5; 7; 4; 8]; [1; 9; 10; 3; 12; 11; 13; 5; 14]]).
Proof. vm_compute. reflexivity. Qed.

End LagrangeSample.

(** ** Point ids *)

Section PointIds.
Import Dune CGAL.

Lemma hash_separates (s v w : N) :
  s <> 0%N -> (v + s <= w \/ w + s <= v)%N -> (v / s <> w / s)%N.
Proof.
  intros Hs Hapart Heq.
  pose proof (N.div_mod v s Hs) as Hv. pose proof (N.div_mod w s Hs) as Hw.
  pose proof (N.mod_lt v s Hs) as Hrv. pose proof (N.mod_lt w s Hs) as Hrw.
  rewrite Heq in Hv.
  remember (s * (w / s))%N as base. remember (v mod s)%N as rv.
  remember (w mod s)%N as rw. lia.
Qed.

Lemma counted_without_repetition (l : list N) :
  (forall i, i < length l -> N.of_nat i ∈ l) ->
  NoDup l /\ forall x, x ∈ l -> (x < N.of_nat (length l))%N.
Proof.
  intros Hall.
  assert (Hseq : NoDup (N.of_nat <$> seq 0 (length l))).
  { apply NoDup_fmap_2; [intros a b; apply Nat2N.inj|apply NoDup_seq]. }
  assert (Hperm : N.of_nat <$> seq 0 (length l) ≡ₚ l).
  { apply submseteq_length_Permutation.
    - apply NoDup_submseteq; [exact Hseq|].
      intros x (i & -> & Hi%elem_of_seq)%list_elem_of_fmap.
      apply Hall. lia.
    - now rewrite length_fmap, length_seq. }
  split.
  - now rewrite <- Hperm.
  - intros x Hx. rewrite <- Hperm in Hx.
    apply list_elem_of_fmap in Hx as (i & -> & Hi%elem_of_seq). lia.
Qed.

Lemma range_sublist (gv : GridView) (codim : nat)
    (pit : PartitionIteratorType) :
  range gv codim pit
    `sublist_of` filter (fun e => Nat.eqb (codimension e) codim) (entities gv).
Proof.
  unfold range. induction (entities gv) as [|e es IH]; [constructor|].
  destruct (Nat.eqb (codimension e) codim) eqn:Hc.
  - rewrite (filter_cons_True (fun e => Nat.eqb (codimension e) codim))
      by (rewrite Hc; exact I).
    destruct (visits pit (partitionType e)) eqn:Hv.
    + rewrite filter_cons_True by (rewrite Hc, Hv; exact I).
      now apply sublist_skip.
    + rewrite filter_cons_False by (rewrite Hc, Hv; exact (fun H => H)).
      now apply sublist_cons.
  - rewrite !filter_cons_False by (rewrite ?Hc; exact (fun H => H)).
    exact IH.
Qed.

Lemma vertex_indices_counted (gv : GridView) (codim : nat) :
  index_set_consecutive gv codim ->
  NoDup (index <$>
           filter (fun e => Nat.eqb (codimension e) codim) (entities gv))
  /\ forall e, e ∈ entities gv -> codimension e = codim ->
       (index e < N.of_nat (size gv codim))%N.
Proof.
  intros Hconsecutive.
  destruct (counted_without_repetition
    (index <$> filter (fun e => Nat.eqb (codimension e) codim) (entities gv)))
    as [Hnodup Hbound].
  - rewrite length_fmap. intros i Hi.
    destruct (Hconsecutive i Hi) as (e & He & Hc & Hindex).
    rewrite <- Hindex. apply list_elem_of_fmap. exists e.
    split; [reflexivity|]. apply list_elem_of_filter.
    split; [|exact He]. apply Is_true_true. now apply Nat.eqb_eq.
  - split; [exact Hnodup|]. intros e He Hc.
    rewrite length_fmap in Hbound. apply Hbound.
    apply list_elem_of_fmap. exists e. split; [reflexivity|].
    apply list_elem_of_filter. split; [|exact He].
    apply Is_true_true. now apply Nat.eqb_eq.
Qed.

Lemma NoDup_fmap_inj_on {A B : Type} (f : A -> B) (l : list A) (x y : A) :
  NoDup (f <$> l) -> x ∈ l -> y ∈ l -> f x = f y -> x = y.
Proof.
  intros Hnodup [i Hi]%list_elem_of_lookup [j Hj]%list_elem_of_lookup Hf.
  assert (Hij : i = j).
  { apply (NoDup_lookup (f <$> l) i j (f x) Hnodup).
    - now rewrite list_lookup_fmap, Hi.
    - now rewrite list_lookup_fmap, Hj, Hf. }
  subst j. congruence.
Qed.

(** C4.  Point ids are non-negative and distinct for distinct points of
    the enumerated sequence.  The id of a CGAL vertex is its address
    divided by the size of a vertex, which separates the distinct stored
    vertices and does not exceed the address.  The id of a Dune vertex is
    its index in the index set: as the index set counts the vertices from
    zero without gaps, no index occurs twice among the stored vertices,
    so the ids of the enumerated points are pairwise distinct and below
    the number of stored vertices.  The ids of a Lagrange mesh are
    [0 .. number_of_points - 1] in the order of the points. *)
Theorem point_ids_distinct :
  (forall grid v w,
     storage_disjoint grid ->
     v ∈ CGALTraits.Points.get grid -> w ∈ CGALTraits.Points.get grid ->
     v <> w ->
     CGALTraits.PointId.get grid v <> CGALTraits.PointId.get grid w)
  /\ (forall grid v,
        (0 <= Z.of_N (CGALTraits.PointId.get grid v) <= Z.of_N v)%Z)
  /\ (forall grid_view,
        index_set_consecutive grid_view (dimension grid_view) ->
        NoDup (DuneTraits.PointId.get grid_view
                 <$> DuneTraits.Points.get grid_view)
        /\ (forall p q,
              p ∈ DuneTraits.Points.get grid_view ->
              q ∈ DuneTraits.Points.get grid_view ->
              p <> q ->
              DuneTraits.PointId.get grid_view p
                <> DuneTraits.PointId.get grid_view q)
        /\ forall p,
             p ∈ DuneTraits.Points.get grid_view ->
             (0 <= Z.of_N (DuneTraits.PointId.get grid_view p)
              < Z.of_nat (size grid_view (dimension grid_view)))%Z)
  /\ (forall (GridView Local Position : Type)
             (mesh : @DuneLagrange.Mesh GridView Local Position),
        DuneLagrange.PointId_get mesh <$> DuneLagrange.Points_get mesh
          = seq 0 (DuneLagrange.number_of_points mesh)
        /\ NoDup (DuneLagrange.PointId_get mesh
                    <$> DuneLagrange.Points_get mesh)
        /\ forall p, p ∈ DuneLagrange.Points_get mesh ->
             (0 <= Z.of_nat (DuneLagrange.PointId_get mesh p)
              < Z.of_nat (DuneLagrange.number_of_points mesh))%Z).
Proof.
  split; [|split; [|split]].
  - intros grid v w [Hsize Hapart] Hv Hw Hne.
    unfold CGALTraits.Points.get, finite_vertex_handles in Hv, Hw.
    apply list_elem_of_filter in Hv as [_ Hv], Hw as [_ Hw].
    apply hash_separates; [exact Hsize|]. now apply Hapart.
  - intros grid v. unfold CGALTraits.PointId.get, Handle_hash_function.
    split; [apply N2Z.is_nonneg|]. apply N2Z.inj_le.
    destruct (N.eq_dec (sizeof_vertex grid) 0%N) as [Hs|Hs].
    + rewrite Hs, N.div_0_r. apply N.le_0_l.
    + apply N.Div0.div_le_upper_bound. nia.
  - intros grid_view Hconsecutive.
    destruct (vertex_indices_counted _ _ Hconsecutive) as [Hnodup Hbound].
    pose proof (range_sublist grid_view (dimension grid_view)
                  InteriorBorder_Partition) as Hsub.
    split; [|split].
    + eapply sublist_NoDup; [exact Hnodup|].
      now apply (fmap_sublist index).
    + intros p q Hp Hq Hne Hid. apply Hne.
      eapply (NoDup_fmap_inj_on index); [exact Hnodup| | |exact Hid];
        eapply elem_of_sublist; eauto.
    + intros p (Hp & Hc & _)%range_spec.
      specialize (Hbound p Hp Hc). unfold DuneTraits.PointId.get. lia.
  - intros GridView Local Position mesh. unfold DuneLagrange.Points_get.
    assert (Hids : DuneLagrange.PointId_get mesh
                     <$> seq 0 (DuneLagrange.number_of_points mesh)
                   = seq 0 (DuneLagrange.number_of_points mesh)).
    { apply list_eq. intros i. rewrite list_lookup_fmap.
      now destruct (seq 0 (DuneLagrange.number_of_points mesh) !! i). }
    split; [exact Hids|]. split.
    + rewrite Hids. apply NoDup_seq.
    + intros p Hp%elem_of_seq. unfold DuneLagrange.PointId_get. lia.
Qed.

Lemma triangle_grid_storage_disjoint : storage_disjoint Samples.triangle_grid.
Proof.
  split; [discriminate|]. intros v w Hv Hw Hne. cbn in Hv, Hw |- *.
  repeat (apply elem_of_cons in Hv as [-> | Hv]);
    try (now apply elem_of_nil in Hv);
    repeat (apply elem_of_cons in Hw as [-> | Hw]);
    try (now apply elem_of_nil in Hw); try contradiction; lia.
Qed.

Lemma quad_view_index_set_consecutive :
  index_set_consecutive Samples.quad_view 2.
Proof.
  intros i Hi. change (size Samples.quad_view 2) with 6 in Hi.
  assert (Hv : exists e, Samples.quad_vertices !! i = Some e
                         /\ index e = N.of_nat i).
  { do 6 (destruct i as [|i]; [eexists; split; reflexivity|]). lia. }
  destruct Hv as (e & He & Hindex). exists e.
  assert (Hin : e ∈ Samples.quad_vertices)
    by (apply list_elem_of_lookup; eauto).
  split; [|split; [|exact Hindex]].
  - cbn. now do 2 apply list_elem_of_further.
  - cbn in Hin.
    repeat (apply elem_of_cons in Hin as [-> | Hin]; [reflexivity|]).
    now apply elem_of_nil in Hin.
Qed.

Lemma point_ids_distinct_witness :
  CGALTraits.PointId.get Samples.triangle_grid 4848%N
    <> CGALTraits.PointId.get Samples.triangle_grid 4896%N
  /\ DuneTraits.PointId.get Samples.quad_view
       (Samples.vertex_entity 2 InteriorEntity 0)
     <> DuneTraits.PointId.get Samples.quad_view
          (Samples.vertex_entity 2 BorderEntity 1)
  /\ NoDup (DuneTraits.PointId.get Samples.quad_view
              <$> DuneTraits.Points.get Samples.quad_view).
Proof.
  destruct point_ids_distinct as (Hcgal & _ & Hdune & _).
  destruct (Hdune Samples.quad_view quad_view_index_set_consecutive)
    as (Hnodup & Hdistinct & _).
  split; [|split; [|exact Hnodup]].
  - apply Hcgal.
    + exact triangle_grid_storage_disjoint.
    + rewrite triangle_grid_points. apply list_elem_of_here.
    + rewrite triangle_grid_points. apply list_elem_of_further,
        list_elem_of_here.
    + discriminate.
  - apply Hdistinct.
    + apply range_spec. split; [|split; reflexivity].
      cbn. do 2 apply list_elem_of_further. apply list_elem_of_here.
    + apply range_spec. split; [|split; reflexivity].
      cbn. do 3 apply list_elem_of_further. apply list_elem_of_here.
    + discriminate.
Defined.

Example triangle_grid_point_ids :
  map (CGALTraits.PointId.get Samples.triangle_grid)
      (CGALTraits.Points.get Samples.triangle_grid)
  = [101; 102; 103]%N.
Proof. reflexivity. Qed.

End PointIds.

(** * Further properties *)

(** ** Names of VTK attributes *)

Section AttributeNames.
Import VTK.

(** X1.  Whenever [data_format_name] throws, the data format its message
    recommends is accepted for the same encoder. *)
Theorem data_format_name_suggestion_works (e : Encoder) (format : DataFormat) :
  (exists name, data_format_name e format = Ok name)
  \/ (exists msg name,
        data_format_name e format = Throw (ValueError msg)
        /\ names ("GridFormat::VTK::" +:+ format_name (other_format format))
                 msg = true
        /\ data_format_name e (other_format format) = Ok name).
Proof.
  destruct e, format; cbn [data_format_name];
    first [ left; eexists; reflexivity
          | right; do 2 eexists; repeat split; reflexivity ].
Qed.

Lemma to_string_injective (a b : N) : to_string a = to_string b -> a = b.
Proof.
  intros Heq. pose proof (to_string_decimal a) as Ha.
  rewrite Heq, to_string_decimal in Ha. now injection Ha.
Qed.

(** X2.  The attribute name of a precision determines the precision: two
    precisions with the same name agree on being integral, on the size,
    and, when integral, on the sign. *)
Theorem attribute_name_precision_injective (p q : DynamicPrecision) :
  (8 * size_in_bytes p < 2 ^ 64)%N ->
  (8 * size_in_bytes q < 2 ^ 64)%N ->
  attribute_name_precision p = attribute_name_precision q ->
  is_integral p = is_integral q
  /\ size_in_bytes p = size_in_bytes q
  /\ (is_integral p = true -> is_signed p = is_signed q).
Proof.
  intros Hp Hq. unfold attribute_name_precision, prefix_of, size_t_mul.
  rewrite !(N.mul_comm _ 8), !N.mod_small by assumption.
  destruct (is_integral p), (is_signed p), (is_integral q), (is_signed q);
    cbn; intros Heq; try discriminate;
    injection Heq as Heq%to_string_injective;
    (split; [reflexivity|]); (split; [lia|]); intros; congruence.
Qed.

Lemma attribute_name_precision_injective_witness :
  is_integral uint32 = is_integral uint32
  /\ size_in_bytes uint32 = size_in_bytes uint32
  /\ (is_integral uint32 = true -> is_signed uint32 = is_signed uint32).
Proof.
  apply (attribute_name_precision_injective uint32 uint32); reflexivity.
Defined.

(** X3.  A data-format name that is returned tells the placement and, for
    inlined data, the encoder: it is "appended" exactly for appended data,
    "ascii" exactly for inlined Ascii and "binary" exactly for inlined
    Base64. *)
Theorem data_format_name_tells_placement
    (e : Encoder) (format : DataFormat) (name : string) :
  data_format_name e format = Ok name ->
  (name = "appended" <-> format = Appended)
  /\ (name = "ascii" <-> e = Ascii /\ format = Inlined)
  /\ (name = "binary" <-> e = Base64 /\ format = Inlined).
Proof.
  destruct e, format; cbn [data_format_name data_format_name_fallback];
    intros [= <-]; repeat split; intros; try discriminate;
    try reflexivity; intuition discriminate.
Qed.

Lemma data_format_name_tells_placement_witness :
  ("binary" = "appended" <-> Inlined = Appended)
  /\ ("binary" = "ascii" <-> Base64 = Ascii /\ Inlined = Inlined)
  /\ ("binary" = "binary" <-> Base64 = Base64 /\ Inlined = Inlined).
Proof.
  apply (data_format_name_tells_placement Base64 Inlined "binary").
  reflexivity.
Defined.

(** X4.  No two encoders, no two compressors and no two byte orders share
    an attribute name. *)
Theorem attribute_names_distinct :
  (forall e e', attribute_name e = attribute_name e' -> e = e')
  /\ (forall c c',
        attribute_name_compressor c = attribute_name_compressor c' -> c = c')
  /\ (forall b b', attribute_name_endian b = attribute_name_endian b' -> b = b').
Proof.
  repeat split.
  - intros [] []; cbn; intros; congruence.
  - intros [] []; cbn; intros; congruence.
  - intros [] []; cbn; intros; congruence.
Qed.

Lemma attribute_names_distinct_witness : Base64 = Base64 /\ ZLIB = ZLIB.
Proof.
  destruct attribute_names_distinct as (Hencoder & Hcompressor & _).
  split; [apply Hencoder | apply Hcompressor]; reflexivity.
Defined.

End AttributeNames.

(** ** Connectivity of CGAL triangulations *)

Section CGALConnectivity.
Import CGAL.

Lemma mapM_lookup_all {A : Type} (pre l : list A) :
  mapM (fun i => match (pre ++ l) !! i with
                 | Some v => Ok v
                 | None => Throw Undefined
                 end)
       (seq (length pre) (length l)) = Ok l.
Proof.
  revert pre. induction l as [|x l IH]; intros pre; [reflexivity|].
  cbn [length seq mapM].
  rewrite lookup_app_r, Nat.sub_diag by lia. cbn [lookup list_lookup bind].
  specialize (IH (pre ++ [x])).
  rewrite <- app_assoc, length_app in IH. cbn [length app] in IH.
  rewrite Nat.add_1_r in IH. now rewrite IH.
Qed.

(** X5.  The points of an enumerated CGAL cell are its stored corners, as
    many as [NumberOfCellPoints] tells, and each of them is one of the
    enumerated points of the grid: a finite cell has no infinite corner. *)
Theorem cgal_cell_points_are_points (grid : Triangulation) (cell : Cell) :
  cell ∈ CGALTraits.Cells.get grid ->
  length (cell_vertices cell) = CGALTraits.NumberOfCellPoints.get grid cell ->
  (forall v, v ∈ cell_vertices cell -> v ∈ tds_vertices grid) ->
  exists points,
    CGALTraits.CellPoints.get grid cell = Ok points
    /\ points = cell_vertices cell
    /\ length points = CGALTraits.NumberOfCellPoints.get grid cell
    /\ forall v, v ∈ points -> v ∈ CGALTraits.Points.get grid.
Proof.
  intros Hcell Hlen Hstored. exists (cell_vertices cell).
  split; [|split; [reflexivity|split; [exact Hlen|]]].
  - unfold CGALTraits.CellPoints.get, vertex.
    unfold CGALTraits.NumberOfCellPoints.get in Hlen.
    replace (if grid2d grid then 3 else 4) with (length (cell_vertices cell))
      by (rewrite Hlen; now destruct (grid2d grid)).
    exact (mapM_lookup_all [] (cell_vertices cell)).
  - intros v Hv.
    assert (Hfinite : is_infinite_cell grid cell = false).
    { unfold CGALTraits.Cells.get, finite_face_handles, finite_cell_handles
        in Hcell.
      destruct (grid2d grid);
        apply list_elem_of_filter in Hcell as [Hfin _];
        apply Is_true_true in Hfin; now apply negb_true_iff. }
    unfold CGALTraits.Points.get, finite_vertex_handles.
    apply list_elem_of_filter. split; [|now apply Hstored].
    apply Is_true_true, negb_true_iff.
    unfold is_infinite_cell in Hfinite.
    destruct (is_infinite grid v) eqn:Hinf; [|reflexivity].
    assert (Hex : existsb (is_infinite grid) (cell_vertices cell) = true).
    { apply existsb_exists. exists v. split; [|exact Hinf].
      now apply list_elem_of_In. }
    congruence.
Qed.

Lemma cgal_cell_points_are_points_witness :
  exists points,
    CGALTraits.CellPoints.get Samples.triangle_grid
      {| cell_address := 9000%N; cell_vertices := [4848; 4896; 4944]%N |}
    = Ok points
    /\ points = [4848; 4896; 4944]%N
    /\ length points = 3
    /\ forall v, v ∈ points -> v ∈ CGALTraits.Points.get Samples.triangle_grid.
Proof.
  apply (cgal_cell_points_are_points Samples.triangle_grid
           {| cell_address := 9000%N;
              cell_vertices := [4848; 4896; 4944]%N |}).
  - apply list_elem_of_here.
  - reflexivity.
  - intros v Hv. cbn. now apply list_elem_of_further.
Defined.

End CGALConnectivity.

(** ** Counts and sequences of Dune grid views *)

Section DuneCounts.
Import Dune.

Lemma filter_both_length {A : Type} (f g : A -> bool) (l : list A) :
  length (filter (fun x => f x && g x) l) <= length (filter (fun x => f x) l)
  /\ (length (filter (fun x => f x && g x) l)
      = length (filter (fun x => f x) l)
      <-> forall x, x ∈ l -> f x = true -> g x = true).
Proof.
  induction l as [|x l [IHle IHeq]].
  - split; [reflexivity|]. split; [|reflexivity].
    intros _ x Hx. now apply elem_of_nil in Hx.
  - assert (Htail : (forall y, y ∈ x :: l -> f y = true -> g y = true)
                    <-> (f x = true -> g x = true)
                        /\ forall y, y ∈ l -> f y = true -> g y = true).
    { split.
      - intros Hall. split; [apply Hall, list_elem_of_here|].
        intros y Hy. apply Hall. now apply list_elem_of_further.
      - intros [Hx Hall] y [->|Hy]%elem_of_cons; auto. }
    rewrite Htail, <- IHeq. clear Htail IHeq.
    destruct (f x) eqn:Hf, (g x) eqn:Hg.
    + rewrite !filter_cons_True by (rewrite ?Hf, ?Hg; exact I).
      cbn [length]. split; [lia|]. split; [intros; split; [auto|lia]|].
      intros [_ ->]. reflexivity.
    + rewrite (filter_cons_True (fun y => f y)) by (rewrite Hf; exact I).
      rewrite filter_cons_False by (rewrite Hf, Hg; exact (fun H => H)).
      cbn [length]. split; [lia|]. split; [lia|].
      intros [Hx _]. specialize (Hx eq_refl). discriminate.
    + rewrite !filter_cons_False by (rewrite ?Hf, ?Hg; exact (fun H => H)).
      split; [lia|]. split; [intros ->; split; [discriminate|reflexivity]|].
      now intros [_ ->].
    + rewrite !filter_cons_False by (rewrite ?Hf, ?Hg; exact (fun H => H)).
      split; [lia|]. split; [intros ->; split; [discriminate|reflexivity]|].
      now intros [_ ->].
Qed.

(** X6.  The counts of a Dune grid view are never below the lengths of
    the enumerated sequences, whatever the number of processes: reserving
    [number_of_cells] entries is enough for all cells. *)
Theorem dune_counts_bound_sequences (grid_view : GridView) :
  length (DuneTraits.Cells.get grid_view)
    <= DuneTraits.NumberOfCells.get grid_view
  /\ length (DuneTraits.Points.get grid_view)
    <= DuneTraits.NumberOfPoints.get grid_view.
Proof.
  unfold DuneTraits.NumberOfCells.get, DuneTraits.NumberOfPoints.get,
    DuneTraits.Cells.get, DuneTraits.Points.get, size, range.
  destruct (comm_size grid_view =? 1)%Z; split; try reflexivity;
    apply (filter_both_length
             (fun e => Nat.eqb (codimension e) _)
             (fun e => visits _ (partitionType e))).
Qed.

(** X7.  On a single process the cell count equals the number of
    enumerated cells exactly when every stored element is interior, and
    the point count equals the number of enumerated points exactly when
    every stored vertex is interior or border. *)
Theorem dune_single_process_counts_exact (grid_view : GridView) :
  comm_size grid_view = 1%Z ->
  (DuneTraits.NumberOfCells.get grid_view
     = length (DuneTraits.Cells.get grid_view)
   <-> forall e, e ∈ entities grid_view -> codimension e = 0 ->
         partitionType e = InteriorEntity)
  /\ (DuneTraits.NumberOfPoints.get grid_view
        = length (DuneTraits.Points.get grid_view)
      <-> forall e, e ∈ entities grid_view ->
            codimension e = dimension grid_view ->
            partitionType e = InteriorEntity
            \/ partitionType e = BorderEntity).
Proof.
  intros Hsize.
  unfold DuneTraits.NumberOfCells.get, DuneTraits.NumberOfPoints.get,
    DuneTraits.Cells.get, DuneTraits.Points.get, size, range.
  rewrite Hsize. cbn [Z.eqb Pos.eqb].
  split.
  - destruct (filter_both_length
                (fun e => Nat.eqb (codimension e) 0)
                (fun e => visits Interior_Partition (partitionType e))
                (entities grid_view)) as [_ Heq].
    split.
    + intros Hcount e He Hc. symmetry in Hcount.
      pose proof (proj1 Heq Hcount e He) as Hv.
      rewrite Hc in Hv. specialize (Hv eq_refl).
      now destruct (partitionType e).
    + intros Hall. symmetry. apply Heq. intros e He Hc%Nat.eqb_eq.
      now rewrite (Hall e He Hc).
  - destruct (filter_both_length
                (fun e => Nat.eqb (codimension e) (dimension grid_view))
                (fun e => visits InteriorBorder_Partition (partitionType e))
                (entities grid_view)) as [_ Heq].
    split.
    + intros Hcount e He Hc. symmetry in Hcount.
      pose proof (proj1 Heq Hcount e He) as Hv.
      rewrite Hc, Nat.eqb_refl in Hv. specialize (Hv eq_refl).
      destruct (partitionType e); auto; discriminate.
    + intros Hall. symmetry. apply Heq. intros e He Hc%Nat.eqb_eq.
      now destruct (Hall e He Hc) as [-> | ->].
Qed.

Lemma dune_single_process_counts_exact_witness :
  DuneTraits.NumberOfCells.get Samples.yasp_view
  = length (DuneTraits.Cells.get Samples.yasp_view)
  <-> forall e, e ∈ entities Samples.yasp_view -> codimension e = 0 ->
        partitionType e = InteriorEntity.
Proof.
  apply (dune_single_process_counts_exact Samples.yasp_view). reflexivity.
Defined.

End DuneCounts.

(** ** Renumbering of corners and sub-entities *)

Section Renumbering.
Import Dune.

Lemma mapM_ext {A B : Type} (f g : A -> Result B) (xs : list A) :
  (forall x, f x = g x) -> mapM f xs = mapM g xs.
Proof.
  intros Hfg. induction xs as [|x xs IH]; [reflexivity|].
  cbn. now rewrite Hfg, IH.
Qed.

Lemma table_at_lookup (map : list Z) (i k : Z) :
  DuneDetail.table_at map i = Ok k <->
  (0 <= i)%Z /\ map !! Z.to_nat i = Some k.
Proof.
  unfold DuneDetail.table_at.
  destruct (Z.ltb_spec i (Z.of_nat (length map))) as [Hlt|Hge];
    destruct (Z.leb_spec 0 i) as [Hpos|Hneg]; cbn [andb].
  - destruct (map !! Z.to_nat i) as [k'|] eqn:Hk.
    + split; [intros [= <-]; auto|]. now intros [_ [= <-]].
    + split; [discriminate|]. now intros [_ ?].
  - split; [discriminate|]. intros [? _]. lia.
  - split; [discriminate|]. intros [_ Hk%lookup_lt_Some]. lia.
  - split; [discriminate|]. intros [? _]. lia.
Qed.

Lemma table_at_injective (map : list Z) (i j k : Z) :
  NoDup map ->
  DuneDetail.table_at map i = Ok k -> DuneDetail.table_at map j = Ok k ->
  i = j.
Proof.
  intros Hnodup [Hi Hik]%table_at_lookup [Hj Hjk]%table_at_lookup.
  pose proof (NoDup_lookup _ _ _ _ Hnodup Hik Hjk). lia.
Qed.

Lemma table_at_closed (map : list Z) (i k : Z) :
  Forall (fun x => (0 <= x < Z.of_nat (length map))%Z) map ->
  DuneDetail.table_at map i = Ok k ->
  exists k', DuneDetail.table_at map k = Ok k'.
Proof.
  intros Hrange [Hi Hik]%table_at_lookup.
  pose proof (Forall_lookup_1 _ _ _ _ Hrange Hik) as Hk. cbn beta in Hk.
  destruct (lookup_lt_is_Some_2 map (Z.to_nat k)) as [k' Hk']; [lia|].
  exists k'. apply table_at_lookup. split; [lia|exact Hk'].
Qed.

(** The tables of the two renumbering functions. *)
Ltac table_facts :=
  first [ apply (bool_decide_unpack _); vm_compute; reflexivity
        | repeat constructor; cbn; lia ].

(** X8.  The corner renumbering is its own inverse: if
    [map_corner_index] sends [i] to [k], it sends [k] back to [i]. *)
Theorem map_corner_index_involution (gt : GeometryType) (i k : Z) :
  DuneDetail.map_corner_index gt i = Ok k ->
  DuneDetail.map_corner_index gt k = Ok i.
Proof.
  unfold DuneDetail.map_corner_index.
  destruct (isQuadrilateral gt); [|destruct (isHexahedron gt)].
  - intros [Hi Hk]%table_at_lookup. apply lookup_lt_Some in Hk as Hlt.
    cbn [length] in Hlt.
    assert (Hcases : (i = 0 \/ i = 1 \/ i = 2 \/ i = 3)%Z) by lia.
    destruct Hcases as [-> | [-> | [-> | ->]]]; injection Hk as <-;
      reflexivity.
  - intros [Hi Hk]%table_at_lookup. apply lookup_lt_Some in Hk as Hlt.
    cbn [length] in Hlt.
    assert (Hcases : (i = 0 \/ i = 1 \/ i = 2 \/ i = 3 \/ i = 4 \/ i = 5
                      \/ i = 6 \/ i = 7)%Z) by lia.
    destruct Hcases as [-> | [-> | [-> | [-> | [-> | [-> | [-> | ->]]]]]]];
      injection Hk as <-; reflexivity.
  - now intros [= <-].
Qed.

Lemma map_corner_index_involution_witness :
  DuneDetail.map_corner_index cube2 3 = Ok 2%Z.
Proof. apply (map_corner_index_involution cube2 2 3). reflexivity. Defined.

(** X9.  Under the hypotheses of the corner order (four corners of a
    quadrilateral, eight of a hexahedron) the points [cell_points]
    returns are a permutation of the corners of the cell: no corner is
    dropped or repeated. *)
Theorem cell_points_permutation (grid_view : GridView) (element : Entity) :
  (isQuadrilateral (type element) = true -> subEntities element = 4) ->
  (isHexahedron (type element) = true -> subEntities element = 8) ->
  exists points,
    DuneTraits.CellPoints.get grid_view element = Ok points
    /\ Permutation points (corners element).
Proof.
  intros Hq Hh.
  unfold DuneTraits.CellPoints.get, DuneDetail.map_corner_index, subEntity,
    subEntities in *.
  destruct (isQuadrilateral (type element)).
  - specialize (Hq eq_refl).
    destruct (corners element) as [|a [|b [|c [|d [|x l]]]]];
      try discriminate Hq.
    eexists. split; [reflexivity|]. do 2 apply perm_skip. apply perm_swap.
  - destruct (isHexahedron (type element)).
    + specialize (Hh eq_refl).
      destruct (corners element)
        as [|a [|b [|c [|d [|e [|f [|g [|h [|x l]]]]]]]]];
        try discriminate Hh.
      eexists. split; [reflexivity|]. do 2 apply perm_skip.
      etransitivity; [apply perm_swap|]. do 4 apply perm_skip.
      apply perm_swap.
    + exists (corners element). split; [|reflexivity].
      rewrite (mapM_ext _
                 (fun i => match ([] ++ corners element) !! i with
                           | Some v => Ok v
                           | None => Throw Undefined
                           end)).
      * exact (mapM_lookup_all [] (corners element)).
      * intros i. cbn [bind app].
        destruct (Z.ltb_spec (Z.of_nat i) 0); [lia|].
        now rewrite Nat2Z.id.
Qed.

Lemma cell_points_permutation_witness :
  exists points,
    DuneTraits.CellPoints.get Samples.quad_view Samples.quad_element
      = Ok points
    /\ Permutation points (corners Samples.quad_element).
Proof.
  apply (cell_points_permutation Samples.quad_view Samples.quad_element);
    intros; [reflexivity | discriminate].
Defined.

(** X10.  The sub-entity renumbering of the Lagrange mesh is one-to-one
    and stays within the numbers it is defined on: two sub-entities
    never get the same new number, and every new number is itself a
    number the function accepts. *)
Theorem dune_to_gfmt_sub_entity_bijective
    (gt : GeometryType) (codim : nat) (i j k : Z) :
  DuneLagrangeDetail.dune_to_gfmt_sub_entity gt i codim = Ok k ->
  (DuneLagrangeDetail.dune_to_gfmt_sub_entity gt j codim = Ok k -> i = j)
  /\ exists k', DuneLagrangeDetail.dune_to_gfmt_sub_entity gt k codim = Ok k'.
Proof.
  unfold DuneLagrangeDetail.dune_to_gfmt_sub_entity.
  repeat match goal with
         | |- context [if ?b then _ else _] => destruct b
         end;
    intros Hi;
    first [ injection Hi as <-; split; [now intros [= <-]|now exists i]
          | split;
            [ intros Hj; refine (table_at_injective _ i j k _ Hi Hj);
              table_facts
            | refine (table_at_closed _ i k _ Hi); table_facts ] ].
Qed.

Lemma dune_to_gfmt_sub_entity_bijective_witness :
  (DuneLagrangeDetail.dune_to_gfmt_sub_entity cube3 4 2 = Ok 3%Z -> 4 = 4)%Z
  /\ exists k', DuneLagrangeDetail.dune_to_gfmt_sub_entity cube3 3 2 = Ok k'.
Proof.
  apply (dune_to_gfmt_sub_entity_bijective cube3 2 4 4 3). reflexivity.
Defined.

(** X11.  The Lagrange cell type of a geometry type is the higher-order
    variant of its linear cell type; it is refused exactly when the
    linear one is refused or is the vertex. *)
Theorem lagrange_cell_type_of_linear (gt : GeometryType) :
  DuneLagrangeDetail.cell_type gt
  = match DuneDetail.cell_type gt with
    | Ok ct =>
        match lagrange_variant ct with
        | Some lagrange => Ok lagrange
        | None => Throw (NotImplemented "Unsupported Dune::GeometryType")
        end
    | Throw _ => Throw (NotImplemented "Unsupported Dune::GeometryType")
    end.
Proof.
  unfold DuneDetail.cell_type, DuneLagrangeDetail.cell_type.
  unfold isVertex, isLine, isTriangle, isQuadrilateral, isTetrahedron,
    isHexahedron.
  destruct gt as [tid d [|]]; cbn [none dim topologyId negb andb];
    destruct (N.eqb_spec d 0), (N.eqb_spec d 1), (N.eqb_spec d 2),
      (N.eqb_spec d 3); try lia; cbn;
    destruct (N.eqb_spec (N.lor tid 1) 1), (N.eqb_spec (N.lor tid 1) 3),
      (N.eqb_spec (N.lor tid 1) 7); try lia; reflexivity.
Qed.

End Renumbering.

(** ** Ordinates, origin and locations of a YaspGrid *)

Section YaspStructure.
Import Dune.

Lemma lookup_fold_insert {A : Type} (f : nat -> A) (indices : list nat)
    (l : list A) (i : nat) :
  i < length l ->
  fold_left (fun acc j => <[j := f j]> acc) indices l !! i
  = if decide (i ∈ indices) then Some (f i) else l !! i.
Proof.
  revert l. induction indices as [|j indices IH]; intros l Hi; cbn.
  - rewrite decide_False by apply not_elem_of_nil. reflexivity.
  - rewrite IH by now rewrite length_insert.
    destruct (decide (i ∈ indices)) as [Hin|Hout].
    + rewrite decide_True by now apply list_elem_of_further. reflexivity.
    + destruct (decide (i = j)) as [->|Hne].
      * rewrite decide_True by apply list_elem_of_here.
        now apply list_lookup_insert_eq.
      * rewrite decide_False by (intros [?|?]%elem_of_cons; congruence).
        now apply list_lookup_insert_ne.
Qed.

Lemma interior_bounds_inv (grid_view : YaspGridView)
    (grid_level : YGridLevel) (bounds : YGridComponent) :
  DuneTraits.interior_bounds grid_view = Ok (grid_level, bounds) ->
  exists cell interior_grid,
    head (DuneTraits.Cells.get grid_view) = Some cell
    /\ levels grid_view !! level cell = Some grid_level
    /\ interior grid_level !! 0 = Some interior_grid
    /\ head interior_grid = Some bounds.
Proof.
  unfold DuneTraits.interior_bounds, deref.
  destruct (head (DuneTraits.Cells.get grid_view)) as [cell|] eqn:Hcell;
    [|discriminate]. cbn [bind].
  destruct (levels grid_view !! level cell) as [gl|] eqn:Hgl; [|discriminate].
  cbn [bind].
  destruct (interior gl !! 0) as [ig|] eqn:Hig; [|discriminate]. cbn [bind].
  destruct (head ig) as [gc|] eqn:Hgc; [|discriminate]. cbn [bind].
  intros [= <- <-]. exists cell, ig. repeat split; assumption.
Qed.

Lemma ordinates_lookup
    (grid_view : YaspGridView) (direction : nat)
    (grid_level : YGridLevel) (bounds : YGridComponent) :
  DuneTraits.interior_bounds grid_view = Ok (grid_level, bounds) ->
  (min bounds direction - 1 <= max bounds direction)%Z ->
  (- 2 ^ 31 <= min bounds direction)%Z ->
  (max bounds direction + 1 <= INT_MAX)%Z ->
  (max bounds direction - min bounds direction + 2 <= INT_MAX)%Z ->
  exists ordinates,
    DuneTraits.Ordinates.get grid_view direction = Ok ordinates
    /\ forall i : nat,
         (Z.of_nat i <= max bounds direction - min bounds direction + 1)%Z ->
         ordinates !! i
         = Some (coordinate grid_level direction
                   (min bounds direction + Z.of_nat i)).
Proof.
  intros Hbounds Hlo Hmin Hmax Hfit. unfold DuneTraits.Ordinates.get.
  rewrite Hbounds. cbn [bind fst snd].
  set (lo := min bounds direction) in *.
  set (hi := max bounds direction) in *.
  assert (Hnum : int_add (int_sub hi lo) 2 = (hi - lo + 2)%Z).
  { unfold int_add, int_sub.
    rewrite (to_int_small (hi - lo)) by (unfold INT_MAX in *; lia).
    apply to_int_small. unfold INT_MAX in *. lia. }
  rewrite Hnum. unfold DuneTraits.Ordinates.make_vector.
  destruct (Z.ltb_spec (hi - lo + 2) 0) as [Hneg|_]; [lia|].
  cbn [bind]. eexists. split; [reflexivity|]. intros i Hi.
  rewrite lookup_fold_insert by (rewrite length_replicate; lia).
  rewrite decide_True by (apply elem_of_seq; lia).
  unfold int_add. rewrite to_int_small by (unfold INT_MAX in *; lia).
  reflexivity.
Qed.

(** X12.  The ordinates of an axis are the grid coordinates of the
    interior point indices in ascending order: entry [i] is
    [coordinate(direction, min + i)], for [i] up to the number of cells.
    The point indices [min .. max + 1] and their number are [int]
    values. *)
Theorem yasp_ordinates_values
    (grid_view : YaspGridView) (direction : nat)
    (grid_level : YGridLevel) (bounds : YGridComponent) :
  DuneTraits.interior_bounds grid_view = Ok (grid_level, bounds) ->
  (min bounds direction - 1 <= max bounds direction)%Z ->
  (- 2 ^ 31 <= min bounds direction)%Z ->
  (max bounds direction + 1 <= INT_MAX)%Z ->
  (max bounds direction - min bounds direction + 2 <= INT_MAX)%Z ->
  exists ordinates,
    DuneTraits.Ordinates.get grid_view direction = Ok ordinates
    /\ forall i : nat,
         (Z.of_nat i <= max bounds direction - min bounds direction + 1)%Z ->
         ordinates !! i
         = Some (coordinate grid_level direction
                   (min bounds direction + Z.of_nat i)).
Proof. apply ordinates_lookup. Qed.

Lemma yasp_ordinates_values_witness :
  exists ordinates,
    DuneTraits.Ordinates.get Samples.yasp_view 1 = Ok ordinates
    /\ forall i : nat,
         (Z.of_nat i <= 1 - 0 + 1)%Z ->
         ordinates !! i = Some ((0 + Z.of_nat i) # 2)%Q.
Proof.
  destruct (yasp_ordinates_values Samples.yasp_view 1 _ _ eq_refl)
    as (ordinates & Hget & Hvalues);
    [cbn; lia | cbn; lia | cbn; unfold INT_MAX; lia
    | cbn; unfold INT_MAX; lia |].
  exists ordinates. split; [exact Hget|]. intros i Hi. exact (Hvalues i Hi).
Defined.

(** X13.  The origin of a YaspGrid view is the first ordinate of every
    axis. *)
Theorem yasp_origin_is_first_ordinate
    (grid_view : YaspGridView) (direction : nat)
    (grid_level : YGridLevel) (bounds : YGridComponent) :
  DuneTraits.interior_bounds grid_view = Ok (grid_level, bounds) ->
  direction < dimension grid_view ->
  (min bounds direction - 1 <= max bounds direction)%Z ->
  (- 2 ^ 31 <= min bounds direction)%Z ->
  (max bounds direction + 1 <= INT_MAX)%Z ->
  (max bounds direction - min bounds direction + 2 <= INT_MAX)%Z ->
  exists origin ordinates x,
    DuneTraits.Origin.get grid_view = Ok origin
    /\ DuneTraits.Ordinates.get grid_view direction = Ok ordinates
    /\ origin !! direction = Some x
    /\ ordinates !! 0 = Some x.
Proof.
  intros Hbounds Hdir Hlo Hmin Hmax Hfit.
  destruct (ordinates_lookup grid_view direction grid_level bounds
              Hbounds Hlo Hmin Hmax Hfit) as (ordinates & Hord & Hvalues).
  unfold DuneTraits.Origin.get. rewrite Hbounds. cbn [bind fst snd].
  eexists _, ordinates, _. split; [reflexivity|]. split; [exact Hord|].
  split.
  - rewrite list_lookup_fmap, lookup_seq_lt by exact Hdir. reflexivity.
  - rewrite (Hvalues 0) by lia. now rewrite Z.add_0_r.
Qed.

Lemma yasp_origin_is_first_ordinate_witness :
  exists origin ordinates x,
    DuneTraits.Origin.get Samples.yasp_view = Ok origin
    /\ DuneTraits.Ordinates.get Samples.yasp_view 0 = Ok ordinates
    /\ origin !! 0 = Some x
    /\ ordinates !! 0 = Some x.
Proof.
  exact (yasp_origin_is_first_ordinate Samples.yasp_view 0 _ _ eq_refl
           ltac:(cbn; lia) ltac:(cbn; lia) ltac:(cbn; lia)
           ltac:(cbn; unfold INT_MAX; lia)
           ltac:(cbn; unfold INT_MAX; lia)).
Defined.

(** X14.  The location of an entity on the level of the first cell,
    whose index along an axis lies in the interior range [min .. max] of
    the axis, is its offset from [min], and lies within the extents:
    it is at least 0 and below [Extents[axis]]. *)
Theorem yasp_location_within_extents
    (grid_view : YaspGridView) (direction : nat)
    (grid_level : YGridLevel) (bounds : YGridComponent)
    (cell entity : Entity) (coord : nat -> Z) :
  DuneTraits.interior_bounds grid_view = Ok (grid_level, bounds) ->
  head (DuneTraits.Cells.get grid_view) = Some cell ->
  level entity = level cell ->
  direction < dimension grid_view ->
  (min bounds direction <= coord direction <= max bounds direction)%Z ->
  (max bounds direction - min bounds direction + 1 <= INT_MAX)%Z ->
  exists location extents x n,
    DuneTraits.Location.get grid_view entity coord = Ok location
    /\ DuneTraits.Extents.get grid_view = Ok extents
    /\ location !! direction = Some x
    /\ extents !! direction = Some n
    /\ x = (coord direction - min bounds direction)%Z
    /\ (0 <= x < n)%Z.
Proof.
  intros Hbounds Hcell Hlevel Hdir Hcoord Hfit.
  destruct (interior_bounds_inv _ _ _ Hbounds)
    as (cell' & interior_grid & Hcell' & Hgl & Hig & Hgc).
  rewrite Hcell in Hcell'. injection Hcell' as <-.
  unfold DuneTraits.Location.get, DuneTraits.Extents.get, deref.
  rewrite Hlevel, Hgl, Hbounds. cbn [bind]. rewrite Hig. cbn [bind].
  rewrite Hgc. cbn [bind snd].
  do 4 eexists. split; [reflexivity|]. split; [reflexivity|].
  rewrite !list_lookup_fmap, !lookup_seq_lt by exact Hdir. cbn.
  split; [reflexivity|]. split; [reflexivity|].
  unfold int_add, int_sub, to_size_t, size_t_modulus.
  rewrite !(to_int_small (_ - _)) by (unfold INT_MAX in *; lia).
  rewrite to_int_small by (unfold INT_MAX in *; lia).
  split; [reflexivity|].
  rewrite Z.mod_small by (unfold INT_MAX in *; lia). lia.
Qed.

Lemma yasp_location_within_extents_witness :
  exists location extents x n,
    DuneTraits.Location.get Samples.yasp_view (Samples.yasp_cell 5)
      (fun i => if Nat.eqb i 0 then 2%Z else 1%Z) = Ok location
    /\ DuneTraits.Extents.get Samples.yasp_view = Ok extents
    /\ location !! 0 = Some x
    /\ extents !! 0 = Some n
    /\ x = (2 - 0)%Z
    /\ (0 <= x < n)%Z.
Proof.
  exact (yasp_location_within_extents Samples.yasp_view 0 _ _
           (Samples.yasp_cell 0) (Samples.yasp_cell 5)
           (fun i => if Nat.eqb i 0 then 2%Z else 1%Z)
           eq_refl eq_refl eq_refl
           ltac:(cbn; lia) ltac:(cbn; lia)
           ltac:(cbn; unfold INT_MAX; lia)).
Defined.

End YaspStructure.

(** ** The point index table of the Lagrange mesh *)

Section PointIndexTable.
Import DuneLagrange.PointIndicesHelper.

(** X16.  After [insert(key, i)] the table contains the key, [get] of its
    codimension and entity returns a map that holds [i] under its
    sub-index, and whether any other key is contained is unchanged. *)
Theorem point_indices_insert_get (m : t) (key : Key) (i : nat) :
  contains (insert m key i) key = true
  /\ (exists by_sub,
        get (insert m key i) (codim key) (global_index key) = Ok by_sub
        /\ by_sub !! sub_index key = Some i)
  /\ forall key', key' <> key ->
       contains (insert m key i) key' = contains m key'.
Proof.
  assert (Hown : lookup (insert m key i) key = Some i).
  { rewrite lookup_insert_key. now rewrite decide_True. }
  assert (Hin : contains (insert m key i) key = true).
  { apply contains_lookup. rewrite Hown. eauto. }
  split; [exact Hin|]. split.
  - destruct key as [c g s]. destruct (contains_get _ _ _ _ Hin) as [by_sub Hget].
    exists by_sub. split; [exact Hget|].
    now rewrite (get_lookup _ _ _ _ Hget).
  - intros key' Hne.
    destruct (contains (insert m key i) key') eqn:Hnew,
             (contains m key') eqn:Hold; try reflexivity.
    + apply contains_lookup in Hnew.
      rewrite lookup_insert_key, decide_False in Hnew by congruence.
      apply contains_lookup in Hnew. congruence.
    + apply contains_lookup in Hold.
      assert (Hnew' : contains (insert m key i) key' = true).
      { apply contains_lookup.
        rewrite lookup_insert_key, decide_False by congruence. exact Hold. }
      congruence.
Qed.

Lemma point_indices_insert_get_witness :
  contains (insert ∅ (Build_Key 1 2 0) 7) (Build_Key 1 2 1)
  = contains ∅ (Build_Key 1 2 1).
Proof.
  apply (point_indices_insert_get ∅ (Build_Key 1 2 0) 7). discriminate.
Defined.

Lemma get_insert (m : t) (key : Key) (i c g : nat) :
  get (insert m key i) c g
  = if decide (codim key = c /\ global_index key = g)
    then Ok (<[sub_index key := i]>
               (match get m c g with Ok by_sub => by_sub | Throw _ => ∅ end))
    else get m c g.
Proof.
  unfold get, insert. destruct key as [kc kg ks]; cbn.
  destruct (decide (kc = c)) as [<-|Hc].
  - rewrite lookup_insert_eq.
    destruct (decide (kg = g)) as [<-|Hg].
    + rewrite lookup_insert_eq, decide_True by auto.
      destruct (m !! kc) as [by_entity|]; cbn; [|reflexivity].
      destruct (by_entity !! kg); reflexivity.
    + rewrite lookup_insert_ne, decide_False by tauto.
      destruct (m !! kc); reflexivity.
  - rewrite lookup_insert_ne, decide_False by tauto. reflexivity.
Qed.

Lemma built_get_nonempty (m : t) (c g : nat) (by_sub : gmap nat nat) :
  built m -> get m c g = Ok by_sub -> by_sub <> ∅.
Proof.
  intros Hbuilt. revert c g by_sub.
  induction Hbuilt as [|m key i Hbuilt IH]; intros c g by_sub.
  - discriminate.
  - rewrite get_insert. destruct (decide _) as [_|_].
    + intros [= <-]. apply insert_non_empty.
    + apply IH.
Qed.

(** X17.  In a table built by insertions, [get] of a codimension and an
    entity throws [out_of_range] exactly when the table contains no key
    of that codimension and entity; on the empty table it always
    throws. *)
Theorem point_indices_get_missing (m : t) (c g : nat) :
  built m ->
  (get m c g = Throw OutOfRange
   <-> forall s, contains m (Build_Key c g s) = false).
Proof.
  intros Hbuilt. split.
  - intros Hget s. destruct (contains m (Build_Key c g s)) eqn:Hc;
      [|reflexivity].
    destruct (contains_get _ _ _ _ Hc) as [by_sub Hok]. congruence.
  - intros Hnone. destruct (get m c g) as [by_sub|e] eqn:Hget.
    + destruct (map_choose by_sub (built_get_nonempty _ _ _ _ Hbuilt Hget))
        as (s & v & Hs).
      rewrite (get_lookup _ _ _ _ Hget) in Hs.
      assert (Hc : contains m (Build_Key c g s) = true).
      { apply contains_lookup. rewrite Hs. eauto. }
      rewrite Hnone in Hc. discriminate.
    + unfold get in Hget.
      destruct (m !! c) as [by_entity|]; [|now rewrite <- Hget].
      destruct (by_entity !! g); [discriminate|now rewrite <- Hget].
Qed.

Lemma point_indices_get_missing_witness :
  built (insert (insert ∅ (Build_Key 1 2 0) 7) (Build_Key 0 4 1) 9)
  /\ get (insert (insert ∅ (Build_Key 1 2 0) 7) (Build_Key 0 4 1) 9) 1 3
       = Throw OutOfRange
  /\ (forall s,
        contains (insert (insert ∅ (Build_Key 1 2 0) 7) (Build_Key 0 4 1) 9)
          (Build_Key 1 3 s) = false)
  /\ get (insert (insert ∅ (Build_Key 1 2 0) 7) (Build_Key 0 4 1) 9) 1 2
       <> Throw OutOfRange
  /\ ~ (forall s,
          contains (insert (insert ∅ (Build_Key 1 2 0) 7) (Build_Key 0 4 1) 9)
            (Build_Key 1 2 s) = false).
Proof.
  assert (Hbuilt :
    built (insert (insert ∅ (Build_Key 1 2 0) 7) (Build_Key 0 4 1) 9))
    by (do 2 constructor; constructor).
  split; [exact Hbuilt|].
  pose proof (point_indices_get_missing _ 1 3 Hbuilt) as Hmissing.
  pose proof (point_indices_get_missing _ 1 2 Hbuilt) as Hpresent.
  assert (Hthrows :
    get (insert (insert ∅ (Build_Key 1 2 0) 7) (Build_Key 0 4 1) 9) 1 3
      = Throw OutOfRange) by reflexivity.
  split; [exact Hthrows|]. split; [exact (proj1 Hmissing Hthrows)|].
  assert (Hcontains :
    contains (insert (insert ∅ (Build_Key 1 2 0) 7) (Build_Key 0 4 1) 9)
      (Build_Key 1 2 0) = true) by reflexivity.
  split.
  - intros Hget. apply (proj1 Hpresent) with (s := 0) in Hget. congruence.
  - intros Hnone. specialize (Hnone 0). congruence.
Defined.

End PointIndexTable.

(** ** Points and cells of the Lagrange mesh *)

Lemma foldM_prefix_preserves {A S : Type} (body : S -> A -> Result S)
    (I : list A -> S -> Prop) (xs : list A) :
  (forall done x s s', I done s -> body s x = Ok s' -> I (done ++ [x]) s') ->
  forall s s', I [] s -> foldM body xs s = Ok s' -> I xs s'.
Proof.
  revert I. induction xs as [|x xs IH]; intros I Hstep s s' Hs Hfold;
    cbn in Hfold.
  - now injection Hfold as <-.
  - destruct (body s x) as [s1|e] eqn:Hbody; [|discriminate]. cbn in Hfold.
    apply (IH (fun done => I (x :: done))) with (s := s1); [| |exact Hfold].
    + intros done y s0 s0'. apply (Hstep (x :: done)).
    + exact (Hstep [] x s s1 Hs Hbody).
Qed.

Section LagrangePoints.
Import DuneLagrange.
Context {GridView Element Local Position : Type}.
Variable ops : GridViewOps GridView Element Local Position.

Lemma make_point_one_key (grid_view : GridView) (element : Element)
    (state state' : PointIndicesHelper.t * list Position)
    (lp : LocalPoint Local) :
  one_key_per_point state ->
  make_point ops grid_view element state lp = Ok state' ->
  one_key_per_point state'.
Proof.
  destruct state as [point_indices points].
  intros (Hbuilt & Hsurj & Hinj). cbn [fst snd] in *. unfold make_point.
  destruct (mapper_at ops grid_view _) as [mapper|]; [|discriminate].
  cbn [bind].
  match goal with
  | |- context [PointIndicesHelper.contains _ ?k] => set (key := k)
  end.
  destruct (PointIndicesHelper.contains point_indices key) eqn:Hcontains.
  - intros [= <-]. exact (conj Hbuilt (conj Hsurj Hinj)).
  - intros [= <-]. unfold one_key_per_point. cbn [fst snd].
    assert (Hfresh : PointIndicesHelper.lookup point_indices key = None).
    { destruct (PointIndicesHelper.lookup point_indices key) eqn:Hk;
        [|reflexivity].
      assert (PointIndicesHelper.contains point_indices key = true)
        by (apply contains_lookup; eauto). congruence. }
    rewrite length_app. cbn [length].
    replace (length points + 1 - 1) with (length points) by lia.
    split; [now constructor|]. split.
    + intros j. split.
      * intros Hj. destruct (decide (j = length points)) as [->|Hne].
        -- exists key. rewrite lookup_insert_key. now rewrite decide_True.
        -- destruct (proj1 (Hsurj j)) as [key0 Hkey0]; [lia|].
           exists key0. rewrite lookup_insert_key.
           rewrite decide_False by congruence. exact Hkey0.
      * intros [key0 Hkey0]. rewrite lookup_insert_key in Hkey0.
        destruct (decide (key = key0)) as [_|_].
        -- injection Hkey0 as <-. lia.
        -- assert (j < length points) by (apply Hsurj; eauto). lia.
    + intros k1 k2 j. rewrite !lookup_insert_key.
      destruct (decide (key = k1)) as [<-|Hk1],
               (decide (key = k2)) as [<-|Hk2]; try congruence.
      * intros [= <-] Hk.
        assert (length points < length points) by (apply Hsurj; eauto). lia.
      * intros Hk [= <-].
        assert (length points < length points) by (apply Hsurj; eauto). lia.
      * apply Hinj.
Qed.

(** X18.  When [_make_points] has run on an empty mesh, every stored point
    is filed under exactly one key of the index table, and every key's
    index is a stored point: a point of a sub-entity shared by several
    elements is stored once. *)
Theorem _make_points_one_key_per_point (grid_view : GridView)
    (local_points : list (Dune.GeometryType * list (LocalPoint Local)))
    (made : PointIndicesHelper.t * list Position) :
  _make_points ops grid_view local_points (∅, []) = Ok made ->
  (forall j, j < length (snd made) <->
     exists key, PointIndicesHelper.lookup (fst made) key = Some j)
  /\ forall key key' j,
       PointIndicesHelper.lookup (fst made) key = Some j ->
       PointIndicesHelper.lookup (fst made) key' = Some j -> key = key'.
Proof.
  unfold _make_points. intros Hmade.
  assert (Hinit : one_key_per_point
                    ((∅, []) : PointIndicesHelper.t * list Position)).
  { split; [constructor|]. split.
    - intros j. cbn. split; [lia|]. intros [key Hkey].
      unfold PointIndicesHelper.lookup in Hkey.
      rewrite lookup_empty in Hkey. discriminate.
    - intros key key' j Hkey. unfold PointIndicesHelper.lookup in Hkey.
      cbn in Hkey. rewrite lookup_empty in Hkey. discriminate. }
  enough (Hall : one_key_per_point made) by exact (proj2 Hall).
  refine (foldM_preserves _ one_key_per_point _ _ _ made Hinit Hmade).
  intros st element st' _ Hst.
  destruct (local_points_at _ _) as [element_points|]; [|discriminate].
  cbn [bind]. intros Hinner.
  refine (foldM_preserves _ one_key_per_point _ _ st st' Hst Hinner).
  intros s lp s' _. apply make_point_one_key.
Qed.

Lemma _set_connectivity_shape (grid_view : GridView)
    (point_indices : PointIndicesHelper.t)
    (connected : list (list nat) * list N) :
  _set_connectivity ops grid_view point_indices ([], []) = Ok connected ->
  length (fst connected) = length (grid_cells ops grid_view)
  /\ snd connected
     = map (fun element => Dune.id (type ops element))
           (grid_cells ops grid_view).
Proof.
  unfold _set_connectivity. intros Hset.
  refine (foldM_prefix_preserves _
            (fun done st =>
               length (fst st) = length done
               /\ snd st = map (fun element => Dune.id (type ops element)) done)
            _ _ ([], []) connected _ Hset).
  - intros done element [cells ids] st' [Hlen Hids]. cbn [fst snd] in *.
    destruct (foldM (connect_codim _ _ _ _) _ _) as [cell_points|];
      [|discriminate].
    cbn [bind]. intros [= <-]. cbn [fst snd].
    rewrite !length_app, map_app, Hlen, Hids. now cbn.
  - now split.
Qed.

Lemma update_shape (mesh0 mesh : Mesh) (grid_view : GridView) :
  update ops mesh0 grid_view = Ok mesh ->
  _grid_view mesh = grid_view
  /\ _order mesh = _order mesh0
  /\ number_of_cells mesh = length (grid_cells ops grid_view)
  /\ _cell_topology_id mesh
     = map (fun element => Dune.id (type ops element))
           (grid_cells ops grid_view).
Proof.
  unfold update, _update_mesh.
  cbn [_grid_view _points _cells _cell_topology_id _local_points _order clear].
  destruct (_make_points _ _ _ _) as [made|]; [|discriminate]. cbn [bind].
  destruct (_set_connectivity _ _ _ _) as [connected|] eqn:Hset;
    [|discriminate].
  cbn [bind]. intros [= <-]. apply _set_connectivity_shape in Hset.
  unfold number_of_cells. cbn. tauto.
Qed.

(** X19.  After [update] the mesh has one cell per enumerated element of
    the grid view, in the same order; the geometry type of cell [i] is
    rebuilt from the topology id of the i-th element and the dimension of
    the view, which drops the "none" flag of the element's type: the cell
    type of cell [i] is the Lagrange cell type of that element when the
    type of the element is not "none" and is of the dimension of the
    view. *)
Theorem update_cells_follow_elements
    (mesh0 mesh : Mesh) (grid_view : GridView) :
  update ops mesh0 grid_view = Ok mesh ->
  number_of_cells mesh = length (grid_cells ops grid_view)
  /\ (forall i element,
        grid_cells ops grid_view !! i = Some element ->
        geometry_type ops mesh i
        = Ok (Dune.make (Dune.id (type ops element))
                        (N.of_nat (dimension ops))))
  /\ (forall i element,
        grid_cells ops grid_view !! i = Some element ->
        Dune.none (type ops element) = false ->
        Dune.dim (type ops element) = N.of_nat (dimension ops) ->
        CellType_get ops mesh i
        = DuneLagrangeDetail.cell_type (type ops element)).
Proof.
  intros (_ & _ & Hcells & Hids)%update_shape. split; [exact Hcells|].
  assert (Hgt : forall i element,
            grid_cells ops grid_view !! i = Some element ->
            geometry_type ops mesh i
            = Ok (Dune.make (Dune.id (type ops element))
                            (N.of_nat (dimension ops)))).
  { intros i element Hi. unfold geometry_type, at_.
    rewrite Hids, list_lookup_fmap, Hi. reflexivity. }
  split; [exact Hgt|].
  intros i element Hi Hnone Hdim. unfold CellType_get.
  rewrite (Hgt i element Hi). cbn [bind]. f_equal.
  destruct (type ops element) as [tid d nn]. cbn in *. subst.
  reflexivity.
Qed.

(** X20.  [update] rebuilds the mesh from the view and the order alone:
    the points and cells the mesh held before do not matter, and updating
    again with the same view gives the same mesh. *)
Theorem update_rebuilds (mesh0 mesh0' mesh : Mesh) (grid_view : GridView) :
  _order mesh0 = _order mesh0' ->
  update ops mesh0 grid_view = update ops mesh0' grid_view
  /\ (update ops mesh0 grid_view = Ok mesh ->
      update ops mesh grid_view = Ok mesh).
Proof.
  intros Horder.
  assert (Hsame : forall m m' : Mesh, _order m = _order m' ->
                    update ops m grid_view = update ops m' grid_view).
  { intros m m' Hmm. unfold update, clear. cbn. now rewrite Hmm. }
  split; [now apply Hsame|].
  intros Hupdate. rewrite <- Hupdate. apply Hsame.
  now apply update_shape in Hupdate as (_ & -> & _).
Qed.

(** X21.  A mesh the constructor returns has the order it was asked for,
    which is at least one, and holds the grid view it was built from; the
    constructor never returns a mesh of order zero. *)
Theorem construct_order_positive
    (grid_view : GridView) (order : nat) (mesh : Mesh) :
  construct ops grid_view order = Ok mesh ->
  1 <= order /\ _order mesh = order /\ _grid_view mesh = grid_view.
Proof.
  unfold construct.
  destruct (update _ _ _) as [mesh'|] eqn:Hupdate; [|discriminate].
  cbn [bind]. destruct (Nat.ltb_spec order 1) as [|Hle]; [discriminate|].
  intros [= <-]. apply update_shape in Hupdate as (Hview & Horder & _).
  auto.
Qed.

(** X22.  Every handle a mesh enumerates after [update] is valid for the
    other traits: each enumerated cell has cell points and a geometry
    type, each of its cell points is an enumerated point, and each
    enumerated point has coordinates. *)
Theorem mesh_handles_valid (mesh0 mesh : Mesh) (grid_view : GridView) :
  update ops mesh0 grid_view = Ok mesh ->
  (forall i, i ∈ Cells_get mesh ->
     exists cell gt,
       CellPoints_get mesh i = Ok cell
       /\ geometry_type ops mesh i = Ok gt
       /\ forall j, j ∈ cell -> j ∈ Points_get mesh)
  /\ (forall j, j ∈ Points_get mesh ->
        exists p, PointCoordinates_get mesh j = Ok p)
  /\ NumberOfCells_get mesh = length (Cells_get mesh)
  /\ NumberOfPoints_get mesh = length (Points_get mesh).
Proof.
  intros Hupdate.
  pose proof (update_in_range ops _ _ _ Hupdate) as Hrange.
  pose proof (update_shape _ _ _ Hupdate) as (_ & _ & Hcells & Hids).
  split; [|split; [|split]].
  - intros i Hi%elem_of_seq.
    destruct (Hrange i) as (cell & Hcell & Hall); [unfold number_of_cells in *; lia|].
    destruct (lookup_lt_is_Some_2 (_cell_topology_id mesh) i) as [id Hid].
    { rewrite Hids, length_map, <- Hcells. lia. }
    exists cell. eexists. split; [exact Hcell|]. split.
    + unfold geometry_type, at_. rewrite Hid. reflexivity.
    + intros j Hj. apply elem_of_seq. destruct (Hall j Hj). lia.
  - intros j Hj%elem_of_seq. unfold PointCoordinates_get, point, at_.
    destruct (lookup_lt_is_Some_2 (_points mesh) j) as [p Hp];
      [unfold number_of_points in *; lia|].
    rewrite Hp. eauto.
  - unfold NumberOfCells_get, Cells_get. now rewrite length_seq.
  - unfold NumberOfPoints_get, Points_get. now rewrite length_seq.
Qed.

End LagrangePoints.

Section LagrangePointsSample.
Import DuneLagrange.

Lemma _make_points_one_key_per_point_witness :
  match _make_points Samples.two_quads tt
          (_update_local_points Samples.two_quads tt 2) (∅, []) with
  | Ok made =>
      (forall j, j < length (snd made) <->
         exists key, PointIndicesHelper.lookup (fst made) key = Some j)
      /\ forall key key' j,
           PointIndicesHelper.lookup (fst made) key = Some j ->
           PointIndicesHelper.lookup (fst made) key' = Some j -> key = key'
  | Throw _ => False
  end.
Proof.
  destruct (_make_points Samples.two_quads tt
              (_update_local_points Samples.two_quads tt 2) (∅, []))
    as [made|e] eqn:Hmade.
  - exact (_make_points_one_key_per_point Samples.two_quads tt _ made Hmade).
  - vm_compute in Hmade. discriminate Hmade.
Defined.

Lemma update_cells_follow_elements_witness :
  match update Samples.two_quads Samples.blank_mesh tt with
  | Ok mesh =>
      number_of_cells mesh = 2
      /\ geometry_type Samples.two_quads mesh 1 = Ok (Dune.make 3 2)
      /\ CellType_get Samples.two_quads mesh 1 = Ok lagrange_quadrilateral
  | Throw _ => False
  end.
Proof.
  destruct (update Samples.two_quads Samples.blank_mesh tt)
    as [mesh|e] eqn:Hupdate.
  - destruct (update_cells_follow_elements Samples.two_quads _ mesh tt Hupdate)
      as (Hcells & Hgt & Hct).
    split; [exact Hcells|]. split.
    + exact (Hgt 1 1 eq_refl).
    + exact (Hct 1 1 eq_refl eq_refl eq_refl).
  - vm_compute in Hupdate. discriminate Hupdate.
Defined.

Lemma update_rebuilds_witness :
  match update Samples.two_quads Samples.blank_mesh tt with
  | Ok mesh => update Samples.two_quads mesh tt = Ok mesh
  | Throw _ => False
  end.
Proof.
  destruct (update Samples.two_quads Samples.blank_mesh tt)
    as [mesh|e] eqn:Hupdate.
  - exact (proj2 (update_rebuilds Samples.two_quads Samples.blank_mesh
                    Samples.blank_mesh mesh tt eq_refl) Hupdate).
  - vm_compute in Hupdate. discriminate Hupdate.
Defined.

Lemma construct_order_positive_witness :
  match construct Samples.two_quads tt 2 with
  | Ok mesh => 1 <= 2 /\ _order mesh = 2 /\ _grid_view mesh = tt
  | Throw _ => False
  end.
Proof.
  destruct (construct Samples.two_quads tt 2) as [mesh|e] eqn:Hmesh.
  - exact (construct_order_positive Samples.two_quads tt 2 mesh Hmesh).
  - vm_compute in Hmesh. discriminate Hmesh.
Defined.

Lemma mesh_handles_valid_witness :
  match update Samples.two_quads Samples.blank_mesh tt with
  | Ok mesh =>
      (forall i, i ∈ Cells_get mesh ->
         exists cell gt,
           CellPoints_get mesh i = Ok cell
           /\ geometry_type Samples.two_quads mesh i = Ok gt
           /\ forall j, j ∈ cell -> j ∈ Points_get mesh)
      /\ (forall j, j ∈ Points_get mesh ->
            exists p, PointCoordinates_get mesh j = Ok p)
      /\ NumberOfCells_get mesh = length (Cells_get mesh)
      /\ NumberOfPoints_get mesh = length (Points_get mesh)
  | Throw _ => False
  end.
Proof.
  destruct (update Samples.two_quads Samples.blank_mesh tt)
    as [mesh|e] eqn:Hupdate.
  - exact (mesh_handles_valid Samples.two_quads _ mesh tt Hupdate).
  - vm_compute in Hupdate. discriminate Hupdate.
Defined.

End LagrangePointsSample.

(** ** The parallel scenario for any even number of processes *)

Section ParallelTiling.
Import ParallelTest.

Lemma floor_unique (k : Z) (x : Q) :
  (inject_Z k <= x)%Q -> (x < inject_Z k + 1)%Q -> Qfloor x = k.
Proof.
  intros Hle Hlt.
  pose proof (Qfloor_le x) as Hfl. pose proof (Qlt_floor x) as Hfu.
  rewrite inject_Z_plus in Hfu. change (inject_Z 1) with 1%Q in Hfu.
  assert (Hk1 : (inject_Z k < inject_Z (Qfloor x + 1))%Q).
  { rewrite inject_Z_plus. change (inject_Z 1) with 1%Q. lra. }
  assert (Hk2 : (inject_Z (Qfloor x) < inject_Z (k + 1))%Q).
  { rewrite inject_Z_plus. change (inject_Z 1) with 1%Q. lra. }
  rewrite <- Zlt_Qlt in Hk1, Hk2. lia.
Qed.

Lemma floor_covers (x : Q) :
  (inject_Z (Qfloor x) <= x /\ x < inject_Z (Qfloor x) + 1)%Q.
Proof.
  pose proof (Qfloor_le x) as Hfl. pose proof (Qlt_floor x) as Hfu.
  rewrite inject_Z_plus in Hfu. change (inject_Z 1) with 1%Q in Hfu.
  split; assumption.
Qed.

Lemma covers_floor (comm_size rank : Z) (grid : ImageGrid) (x y : Q) :
  (0 <= rank)%Z -> main comm_size rank = Ok grid -> covers grid x y ->
  Qfloor x = (rank mod 2)%Z /\ Qfloor y = (rank / 2)%Z.
Proof.
  intros Hrank Hmain Hcov. unfold main in Hmain.
  destruct (negb _); [discriminate|]. injection Hmain as <-.
  unfold covers in Hcov. cbn [origin size fst snd] in Hcov.
  rewrite Z.rem_mod_nonneg, Z.quot_div_nonneg in Hcov by lia.
  destruct Hcov as [[Hx1 Hx2] [Hy1 Hy2]].
  split; apply floor_unique; assumption.
Qed.

(** X23.  For every even number of processes the pieces of the ranks tile
    the rectangle of width 2 and height half the number of processes:
    every point of it belongs to the piece of exactly one rank. *)
Theorem parallel_pieces_tile_any_even_size (comm_size : Z) (x y : Q) :
  (0 < comm_size)%Z -> (comm_size mod 2 = 0)%Z ->
  (0 <= x /\ x < 2)%Q ->
  (0 <= y /\ y < inject_Z (comm_size / 2))%Q ->
  exists rank grid,
    (0 <= rank < comm_size)%Z
    /\ main comm_size rank = Ok grid
    /\ covers grid x y
    /\ forall rank' grid',
         (0 <= rank' < comm_size)%Z -> main comm_size rank' = Ok grid' ->
         covers grid' x y -> rank' = rank.
Proof.
  intros Hpos Heven [Hx0 Hx2] [Hy0 Hy2].
  set (a := Qfloor x). set (b := Qfloor y).
  assert (Ha : (0 <= a < 2)%Z).
  { pose proof (floor_covers x) as [Hl Hu]. fold a in Hl, Hu.
    assert (H1 : (inject_Z (-1) < inject_Z a)%Q)
      by (change (inject_Z (-1)) with (-1 # 1)%Q; lra).
    assert (H2 : (inject_Z a < inject_Z 2)%Q)
      by (change (inject_Z 2) with 2%Q; lra).
    rewrite <- Zlt_Qlt in H1, H2. lia. }
  assert (Hb : (0 <= b < comm_size / 2)%Z).
  { pose proof (floor_covers y) as [Hl Hu]. fold b in Hl, Hu.
    assert (H1 : (inject_Z (-1) < inject_Z b)%Q)
      by (change (inject_Z (-1)) with (-1 # 1)%Q; lra).
    assert (H2 : (inject_Z b < inject_Z (comm_size / 2))%Q) by lra.
    rewrite <- Zlt_Qlt in H1, H2. lia. }
  assert (Hsize : (comm_size = 2 * (comm_size / 2))%Z).
  { pose proof (Z.div_mod comm_size 2). lia. }
  assert (Hmod : ((a + 2 * b) mod 2 = a)%Z).
  { rewrite (Z.mul_comm 2 b), Z.mod_add by lia. apply Z.mod_small. lia. }
  assert (Hdiv : ((a + 2 * b) / 2 = b)%Z).
  { rewrite (Z.mul_comm 2 b), Z.div_add by lia.
    rewrite (Z.div_small a 2) by lia. lia. }
  exists (a + 2 * b)%Z. eexists. split; [lia|]. split.
  - apply main_grid; [lia|exact Heven].
  - split.
    + unfold covers. cbn [origin size fst snd]. rewrite Hmod, Hdiv.
      split; [apply (floor_covers x)|apply (floor_covers y)].
    + intros rank' grid' Hrank' Hmain' Hcov'.
      destruct (covers_floor comm_size rank' grid' x y) as [Hfx Hfy];
        [lia|assumption|assumption|].
      fold a in Hfx. fold b in Hfy.
      pose proof (Z.div_mod rank' 2). lia.
Qed.

Lemma parallel_pieces_tile_any_even_size_witness :
  exists rank grid,
    (0 <= rank < 6)%Z
    /\ main 6 rank = Ok grid
    /\ covers grid (1 # 2) (5 # 2)
    /\ forall rank' grid',
         (0 <= rank' < 6)%Z -> main 6 rank' = Ok grid' ->
         covers grid' (1 # 2) (5 # 2) -> rank' = rank.
Proof.
  apply (parallel_pieces_tile_any_even_size 6 (1 # 2) (5 # 2));
    [lia | reflexivity | split; reflexivity || discriminate
    | split; reflexivity || discriminate].
Defined.

End ParallelTiling.

(** ** The local point sets of the Lagrange mesh *)


Section LocalPointSets.
Import DuneLagrange.
Context {GridView Element Local Position : Type}.
Variable ops : GridViewOps GridView Element Local Position.








End LocalPointSets.

Example mixed_view_local_points :
  DuneLagrange._update_local_points Samples.mixed_view tt 1
  = [(Dune.simplex2, Samples.triangle_local_points);
     (Dune.cube2, Samples.quad_local_points 1 Dune.cube2)].
Proof. reflexivity. Qed.

(** The ordering of the map does not tell the triangle from the type
    "none" of dimension two: listing both leaves one entry, under the key
    that came first and built for the type that came last. *)
Example none_shares_the_entry_of_the_triangle :
  Dune.less Dune.simplex2 Samples.none2 = false
  /\ Dune.less Samples.none2 Dune.simplex2 = false
  /\ DuneLagrange._update_local_points
       (Samples.view_listing [Dune.simplex2; Samples.none2]) tt 1
     = [(Dune.simplex2, Samples.quad_local_points 1 Samples.none2)].
Proof. repeat split. Qed.

